(** * MindRep: a shallow embedding of the mobile client, the database
      schema and the correlation / prescription engine.

    Sources embedded here:
    - [mobile/app/(tabs)/prescription.tsx]: [PrescriptionScreen] and
      [CheckInScreen] (tag toggling, what the screen shows);
    - [mobile/hooks/useMood.ts], [usePrescription]: the two request hooks and
      the SQL schema ([mood_checkins], [exercise_sessions]);
    - [mobile/services/api.ts]: [apiFetch].

    The Python backend (correlation.py, prescription.py) is not part of the
    sources; the engine is modelled from the specification in [Module Engine]. *)

From Stdlib Require Import ZArith QArith Qminmax Lia Lqa.
From Stdlib Require OrdersEx.
From Stdlib Require Import Ascii.
From stdpp Require Import base decidable option list strings gmap pretty.

Local Open Scope Z_scope.

(* ===================================================================== *)
(** * CheckInScreen: selected tags *)
(* ===================================================================== *)

Module CheckIn.

(** [VALID_TAGS], keys only. *)
Definition VALID_TAGS : list string :=
  [ "anxious"; "stressed"; "low_energy"; "restless"; "sad"; "angry";
    "calm"; "happy"; "energetic"; "focused"; "grateful"; "overwhelmed" ]%string.

(** [SCORES] *)
Definition SCORES : list Z := [1; 2; 3; 4; 5; 6; 7; 8; 9; 10].

(** The updater passed to [setSelectedTags] by [toggleTag(key)]:
    [prev => prev.includes(key) ? prev.filter(t => t !== key) : [...prev, key]] *)
Definition toggleTag (key : string) (prev : list string) : list string :=
  if bool_decide (key ∈ prev)
  then filter (λ t, t ≠ key) prev
  else prev ++ [key].

End CheckIn.

(* ===================================================================== *)
(** * services/api.ts *)
(* ===================================================================== *)

Module Api.

(** What a rejected promise carries.  [JsError] is a plain [new Error(m)];
    [SyntaxError] is what [res.json()] rejects with on a body that is not
    JSON, [TypeError] what [fetch] rejects with when no response arrives.
    All three are [instanceof Error]; [NotAnError] is any other thrown value. *)
Inductive Thrown : Type :=
  | JsError (message : string)
  | SyntaxError (message : string)
  | TypeError (message : string)
  | NotAnError.

(** The settled value of a [Promise<T>]. *)
Inductive Settled (T : Type) : Type :=
  | Resolved (value : T)
  | Rejected (e : Thrown).
Arguments Resolved {T} value.
Arguments Rejected {T} e.

(** [res.json()]: the parsed body, or a [SyntaxError]. *)
Inductive JsonOutcome (T : Type) : Type :=
  | Parsed (value : T)
  | NotJson (message : string).
Arguments Parsed {T} value.
Arguments NotJson {T} message.

(** The part of a [Response] that [apiFetch] reads. *)
Record Response (T : Type) : Type := mkResponse {
  ok : bool;
  status : Z;
  text : string;
  json : JsonOutcome T;
}.
Arguments mkResponse {T}.
Arguments ok {T}.
Arguments status {T}.
Arguments text {T}.
Arguments json {T}.

(** [RequestInit], the fields the callers set. *)
Record RequestInit : Type := mkRequestInit {
  method : option string;
  body : option string;
  headers : option (gmap string string);
}.

(** What reaches [fetch]: the URL and [{ ...options, headers }]. *)
Record Request : Type := mkRequest {
  req_url : string;
  req_method : option string;
  req_body : option string;
  req_headers : gmap string string;
}.

(** [fetch] either resolves with a response or rejects. *)
Inductive FetchOutcome (T : Type) : Type :=
  | Responded (res : Response T)
  | NetworkFailure (message : string).
Arguments Responded {T} res.
Arguments NetworkFailure {T} message.

Definition BASE_URL : string := "http://localhost:8000/api/v1".

(** [authHeader]: [session] is what [getSession()] returned, the access
    token of the session or [null]. *)
Definition authHeader (session : option string) : gmap string string :=
  match session with
  | None => ∅
  | Some access_token => {[ "Authorization"%string := ("Bearer " +:+ access_token)%string ]}
  end.

(** The object literal
    [{ 'Content-Type': 'application/json', ...auth, ...(options.headers ?? {}) }]:
    a later spread overrides an earlier key (stdpp's union keeps the left
    value, so the last spread is the leftmost operand). *)
Definition merged_headers (session : option string) (options : RequestInit) : gmap string string :=
  default ∅ (headers options)
  ∪ (authHeader session ∪ {[ "Content-Type"%string := "application/json"%string ]}).

Definition request (session : option string) (path : string) (options : RequestInit) : Request :=
  {| req_url := (BASE_URL +:+ path)%string;
     req_method := method options;
     req_body := body options;
     req_headers := merged_headers session options |}.

(** [apiFetch<T>(path, options)], with the session and the network as
    explicit inputs. *)
Definition apiFetch {T : Type} (session : option string)
    (fetch : Request → FetchOutcome T) (path : string) (options : RequestInit) : Settled T :=
  match fetch (request session path options) with
  | NetworkFailure m => Rejected (TypeError m)
  | Responded res =>
      if negb (ok res) then
        Rejected (JsError ("API " +:+ pretty (status res) +:+ ": " +:+ text res)%string)
      else
        match json res with
        | Parsed v => Resolved v
        | NotJson m => Rejected (SyntaxError m)
        end
  end.

(** [options = {}] *)
Definition no_options : RequestInit :=
  {| method := None; body := None; headers := None |}.

(** [api.get] and [api.post]; [body_json] is [JSON.stringify(body)]. *)
Definition get {T : Type} (session : option string) (fetch : Request → FetchOutcome T)
    (path : string) : Settled T :=
  apiFetch session fetch path no_options.

Definition post {T : Type} (session : option string) (fetch : Request → FetchOutcome T)
    (path : string) (body_json : string) : Settled T :=
  apiFetch session fetch path
    {| method := Some "POST"%string; body := Some body_json; headers := None |}.

End Api.

(* ===================================================================== *)
(** * hooks: useMoodCheckin and usePrescription *)
(* ===================================================================== *)

Module Hooks.
Import Api.

(** [MoodClassification]; JS numbers that hold integers are [Z], the
    others rationals. *)
Record MoodClassification : Type := mkMoodClassification {
  mood_label : string;
  intensity : Z;
  themes : list string;
  confidence : Q;
}.

Record CheckinResponse : Type := mkCheckinResponse {
  id : string;
  created_at : string;
  mood_score : Z;
  journal_text_stored : bool;
  ai_processed : bool;
  classification : option MoodClassification;
  manual_tags : option (list string);
}.

(** The classification of a response read field by field, as optional
    chaining does: [r.classification?.mood_label] and so on. *)
Definition label_of (r : CheckinResponse) : option string :=
  mood_label <$> classification r.

Definition intensity_of (r : CheckinResponse) : option Z :=
  intensity <$> classification r.

Definition themes_of (r : CheckinResponse) : option (list string) :=
  themes <$> classification r.

Definition confidence_of (r : CheckinResponse) : option Q :=
  confidence <$> classification r.

Record MoodPrescription : Type := mkMoodPrescription {
  p_id : string;
  p_created_at : string;
  exercise_type : string;
  suggested_duration_minutes : Z;
  suggested_intensity : string;
  reasoning : string;
  p_confidence : Q;
  source : string;
}.

Record PrescriptionResponse : Type := mkPrescriptionResponse {
  prescription : option MoodPrescription;
  has_data : bool;
  disclaimer : string;
}.

Inductive Status : Type := idle | loading | success | error.

#[global] Instance Status_eq_dec : EqDecision Status.
Proof. solve_decision. Defined.

(** The three [useState] cells of a hook; [R] is [CheckinResponse] for
    [useMoodCheckin] (cell [result]) and [PrescriptionResponse] for
    [usePrescription] (cell [data]). *)
Record HookState (R : Type) : Type := mkHookState {
  status : Status;
  errorMessage : option string;
  result : option R;
}.
Arguments mkHookState {R}.
Arguments status {R}.
Arguments errorMessage {R}.
Arguments result {R}.

(** [useState] initial values. *)
Definition initial {R : Type} : HookState R :=
  {| status := idle; errorMessage := None; result := None |}.

(** [e instanceof Error ? e.message : 'Something went wrong'] *)
Definition message_of (e : Thrown) : string :=
  match e with
  | JsError m | SyntaxError m | TypeError m => m
  | NotAnError => "Something went wrong"
  end.

(** The part of [submit] / [fetch] before the [await]:
    [setStatus('loading'); setErrorMessage(null)]. *)
Definition begin {R : Type} (st : HookState R) : HookState R :=
  {| status := loading; errorMessage := None; result := result st |}.

(** The part after the [await], run when the request settles: the [try]
    continuation [setResult(data); setStatus('success')] or the [catch]
    block [setErrorMessage(...); setStatus('error')].  [Some data] in the
    cell records that it was written with the parsed body [data], a value
    of the response type [R]; it does not say that the body was not the
    JSON value null, which [R] has no value for. *)
Definition settle {R : Type} (o : Settled R) (st : HookState R) : HookState R :=
  match o with
  | Resolved data =>
      {| status := success; errorMessage := errorMessage st; result := Some data |}
  | Rejected e =>
      {| status := error; errorMessage := Some (message_of e); result := result st |}
  end.

(** [reset] *)
Definition reset {R : Type} (st : HookState R) : HookState R :=
  {| status := idle; errorMessage := None; result := None |}.

(** One call that runs from its first line to its last with no other
    update of the same cells in between. *)
Definition call {R : Type} (o : Settled R) (st : HookState R) : HookState R :=
  settle o (begin st).

(** [useMoodCheckin().submit(payload)]: the request is
    [api.post('/mood/checkin', payload)]. *)
Definition submit (session : option string) (fetch : Request → FetchOutcome CheckinResponse)
    (payload_json : string) (st : HookState CheckinResponse) : HookState CheckinResponse :=
  call (post session fetch "/mood/checkin" payload_json) st.

(** [usePrescription().fetch()]: the request is [api.get('/prescriptions/today')]. *)
Definition fetch (session : option string) (net : Request → FetchOutcome PrescriptionResponse)
    (st : HookState PrescriptionResponse) : HookState PrescriptionResponse :=
  call (get session net "/prescriptions/today") st.

(** Calls are asynchronous: between the two halves of one call the cells can
    be written by [reset] or by another call of the same hook.  An event is
    one such atomic update. *)
Inductive Event (R : Type) : Type :=
  | EvBegin
  | EvSettle (o : Settled R)
  | EvReset.
Arguments EvBegin {R}.
Arguments EvSettle {R} o.
Arguments EvReset {R}.

Definition step {R : Type} (st : HookState R) (ev : Event R) : HookState R :=
  match ev with
  | EvBegin => begin st
  | EvSettle o => settle o st
  | EvReset => reset st
  end.

Definition run {R : Type} (evs : list (Event R)) (st : HookState R) : HookState R :=
  foldl step st evs.

(** A schedule is realisable when every [EvSettle] answers a call that has
    begun and not yet settled; [pending] counts those. *)
Fixpoint realisable {R : Type} (pending : nat) (evs : list (Event R)) : bool :=
  match evs with
  | [] => true
  | EvBegin :: evs' => realisable (S pending) evs'
  | EvSettle _ :: evs' =>
      match pending with
      | O => false
      | S n => realisable n evs'
      end
  | EvReset :: evs' => realisable pending evs'
  end.

(** What holds of the cells under every schedule, overlapping calls
    included: an error status comes with a message. *)
Definition settled_well {R : Type} (st : HookState R) : Prop :=
  status st = error → is_Some (errorMessage st).

End Hooks.

(* ===================================================================== *)
(** * PrescriptionScreen: what is shown *)
(* ===================================================================== *)

Module Screen.
Import Hooks.

(** The alternatives of the component's returned tree.  Text formatting
    ([titleCase], the rounded percentage) is left out: a card is identified
    by the prescription it displays. *)
Inductive View : Type :=
  | LoadingView
  | ErrorCard (message : option string)
  | EmptyCard (disclaimer_text : string)
  | RecommendationCard (p : MoodPrescription) (disclaimer_text : string).

Definition default_disclaimer : string :=
  "MindRep is a wellness tool, not a medical device.".

(** [data?.disclaimer ?? '...'] *)
Definition disclaimer_of (data : option PrescriptionResponse) : string :=
  match data with
  | Some d => disclaimer d
  | None => default_disclaimer
  end.

(** [PrescriptionScreen]'s render, as a function of the hook's cells.  The
    guard of the empty state is [!data?.has_data || !data.prescription]. *)
Definition PrescriptionScreen (st : HookState PrescriptionResponse) : View :=
  match status st with
  | idle | loading => LoadingView
  | error => ErrorCard (errorMessage st)
  | success =>
      match result st with
      | None => EmptyCard (disclaimer_of None)
      | Some d =>
          if negb (has_data d) then EmptyCard (disclaimer d)
          else match prescription d with
               | None => EmptyCard (disclaimer d)
               | Some p => RecommendationCard p (disclaimer d)
               end
      end
  end.

Definition shows_recommendation (v : View) : bool :=
  match v with
  | RecommendationCard _ _ => true
  | _ => false
  end.

End Screen.

(* ===================================================================== *)
(** * The SQL schema: mood_checkins and exercise_sessions *)
(* ===================================================================== *)

Module Schema.

(** A column value is [None] for SQL NULL.  A row is the stored row, after
    column defaults have been applied. *)

(** [INTEGER] is a 32-bit signed integer. *)
Definition is_integer (v : Z) : bool :=
  bool_decide (-2147483648 ≤ v ≤ 2147483647).

(** [NOT NULL] *)
Definition not_null {A : Type} (v : option A) : bool :=
  match v with Some _ => true | None => false end.

(** [CHECK (e)] on a column: satisfied when [e] is true or the value is
    NULL (the condition is then unknown, which a CHECK accepts). *)
Definition check {A : Type} (e : A → bool) (v : option A) : bool :=
  match v with Some x => e x | None => true end.

(** [REFERENCES users(id)] on a NOT NULL column. *)
Definition references (users : gset string) (v : option string) : bool :=
  match v with Some u => bool_decide (u ∈ users) | None => true end.

Record mood_checkins : Type := mk_mood_checkins {
  mc_id : option string;
  mc_user_id : option string;
  mc_created_at : option Z;
  mood_score : option Z;
  journal_text : option string;
  manual_tags : option (list string);
  ai_mood_label : option string;
  ai_intensity : option Z;
  ai_themes : option (list string);
  ai_confidence : option Q;
  ai_processed : option bool;
}.

(** Every constraint of [CREATE TABLE mood_checkins]. *)
Definition mood_checkins_accepts (users : gset string) (r : mood_checkins) : bool :=
  not_null (mc_id r)
  && not_null (mc_user_id r) && references users (mc_user_id r)
  && not_null (mood_score r) && check is_integer (mood_score r)
  && check (λ v, bool_decide (1 ≤ v ≤ 10)) (mood_score r)
  && check is_integer (ai_intensity r)
  && check (λ v, bool_decide (1 ≤ v ≤ 10)) (ai_intensity r).

Record exercise_sessions : Type := mk_exercise_sessions {
  es_id : option string;
  es_user_id : option string;
  es_created_at : option Z;
  date : option Z;
  exercise_type : option string;
  duration_minutes : option Z;
  intensity : option string;
  avg_heart_rate : option Q;
  calories : option Q;
  source : option string;
  notes : option string;
}.

(** [intensity IN ('low', 'moderate', 'vigorous')] *)
Definition intensity_in_enum (v : string) : bool :=
  bool_decide (v ∈ ["low"; "moderate"; "vigorous"]%string).

(** Every constraint of [CREATE TABLE exercise_sessions]. *)
Definition exercise_sessions_accepts (users : gset string) (r : exercise_sessions) : bool :=
  not_null (es_id r)
  && not_null (es_user_id r) && references users (es_user_id r)
  && not_null (date r)
  && not_null (exercise_type r)
  && not_null (duration_minutes r) && check is_integer (duration_minutes r)
  && check intensity_in_enum (intensity r).

(** Four nullable values set together or not at all. *)
Definition all_or_nothing {A B C D : Type}
    (a : option A) (b : option B) (c : option C) (d : option D) : bool :=
  (not_null a && not_null b && not_null c && not_null d)
  || (negb (not_null a) && negb (not_null b) && negb (not_null c) && negb (not_null d)).

(** The four classification columns of a stored check-in. *)
Definition ai_all_or_nothing (r : mood_checkins) : bool :=
  all_or_nothing (ai_mood_label r) (ai_intensity r) (ai_themes r) (ai_confidence r).

End Schema.

(* ===================================================================== *)
(** * The correlation and prescription engine *)
(* ===================================================================== *)

Module Engine.

(** Modelled from the spec: the engine lives in the backend
    (services/correlation.py and services/prescription.py), which is not
    among the sources.  Everything in this module follows sections 3, 4.1
    and 4.2 of the specification; floats are exact rationals. *)

(** Modelled from the spec: section 3, the enumerations [intensity] and
    [source]. *)
Inductive Intensity : Type := low | moderate | vigorous.

Inductive Source : Type := correlation | rule_based.

#[global] Instance Intensity_eq_dec : EqDecision Intensity.
Proof. solve_decision. Defined.

#[global] Instance Source_eq_dec : EqDecision Source.
Proof. solve_decision. Defined.

(** Modelled from the spec: section 3, MoodCheckin.  [timestamp] counts
    seconds. *)
Record MoodCheckin : Type := mkMoodCheckin {
  timestamp : Z;
  mood_score : Z;
  journal_text : option string;
  manual_tags : list string;
  ai_mood_label : option string;
  ai_intensity : option Z;
  ai_themes : option (list string);
  ai_confidence : option Q;
}.

(** Modelled from the spec: section 3, ExerciseSession.  [date] counts days. *)
Record ExerciseSession : Type := mkExerciseSession {
  date : Z;
  exercise_type : string;
  duration_minutes : Z;
  intensity : Intensity;
  session_source : string;
}.

(** Modelled from the spec: section 3, Correlation. *)
Record Correlation : Type := mkCorrelation {
  c_user_id : string;
  c_exercise_type : string;
  computed_at : Z;
  mood_change_avg : Q;
  mood_change_pct : Q;
  correlation_r : Q;
  p_value : Q;
  sample_size : Z;
  lag_days : Z;
}.

(** Modelled from the spec: section 3, Prescription. *)
Record Prescription : Type := mkPrescription {
  rx_user_id : string;
  rx_created_at : Z;
  rx_exercise_type : string;
  suggested_duration_minutes : Z;
  suggested_intensity : Intensity;
  reasoning : string;
  confidence : Q;
  source : Source;
  was_followed : option bool;
  follow_up_mood_score : option Z;
}.

(** Modelled from the spec: one row of the static fallback table,
    [(predicate over mood_score/tags) -> (exercise_type, duration,
    intensity, reasoning_template)]. *)
Record Recommendation : Type := mkRecommendation {
  rec_exercise_type : string;
  rec_duration_minutes : Z;
  rec_intensity : Intensity;
  rec_reasoning : string;
}.

Record Rule : Type := mkRule {
  applies : Z → list string → bool;
  recommends : Recommendation;
}.

(** Modelled from the spec: the table is an ordered list of rules closed by
    a catch-all default. *)
Record RuleTable : Type := mkRuleTable {
  rules : list Rule;
  catch_all : Recommendation;
}.

(** Modelled from the spec: the correlation gate, the look-ahead window, the
    significance level and the saturation point of the confidence score. *)
Definition MIN_SAMPLE_SIZE : Z := 5.
Definition LOOKAHEAD_DAYS : Z := 3.
Definition SIGNIFICANCE : Q := 5 # 100.
Definition SATURATION : Q := 20 # 1.

(** Modelled from the spec: "the minimum attainable correlation-based
    confidence at the significance gate": the bound that
    [(1 - p_value) * min(1, sample_size / 20)] approaches as [p_value]
    approaches 0.05 at [sample_size = 5], that is 0.95 * 5 / 20. *)
Definition GATE_MINIMUM_CONFIDENCE : Q :=
  (1 - SIGNIFICANCE) * (inject_Z MIN_SAMPLE_SIZE / SATURATION).

Definition start_of_day (d : Z) : Z := d * 86400.

Definition Qltb (a b : Q) : bool :=
  match (a ?= b)%Q with Lt => true | _ => false end.

Definition Qeqb (a b : Q) : bool :=
  match (a ?= b)%Q with Eq => true | _ => false end.

Definition Qsum (l : list Q) : Q := foldr Qplus 0%Q l.

(** Arithmetic mean. *)
Definition mean (l : list Q) : Q :=
  (Qsum l / inject_Z (Z.of_nat (length l)))%Q.

(** A sequence with zero variance: all its values are equal. *)
Definition constant (l : list Q) : bool :=
  match l with
  | [] => true
  | x :: xs => forallb (Qeqb x) xs
  end.

Definition later (a b : MoodCheckin) : MoodCheckin :=
  if timestamp a <? timestamp b then b else a.

Definition earlier (a b : MoodCheckin) : MoodCheckin :=
  if timestamp b <? timestamp a then b else a.

(** Modelled from the spec: "the most recent check-in", the one with the
    greatest timestamp (the first of them in the sequence on a tie). *)
Definition most_recent (l : list MoodCheckin) : option MoodCheckin :=
  match l with
  | [] => None
  | c :: cs => Some (foldl later c cs)
  end.

(** Modelled from the spec: "ties broken by earliest timestamp", the
    check-in with the least timestamp. *)
Definition earliest (l : list MoodCheckin) : option MoodCheckin :=
  match l with
  | [] => None
  | c :: cs => Some (foldl earlier c cs)
  end.

(** Modelled from the spec: 4.1 step 2, the pre mood is taken from "the
    most recent check-in strictly before the session date". *)
Definition pre_checkin (checkins : list MoodCheckin) (s : ExerciseSession) : option MoodCheckin :=
  most_recent (filter (λ c, timestamp c < start_of_day (date s)) checkins).

(** Modelled from the spec: 4.1 step 2, the post mood is taken from the
    earliest check-in on or after [session.date + lag_days], no later than
    3 days beyond that target. *)
Definition post_checkin (lag : Z) (checkins : list MoodCheckin) (s : ExerciseSession) : option MoodCheckin :=
  earliest (filter (λ c, start_of_day (date s + lag) ≤ timestamp c
                        ∧ timestamp c < start_of_day (date s + lag + LOOKAHEAD_DAYS + 1)) checkins).

(** Modelled from the spec: 4.1 steps 2 and 3, a session contributes at most
    one [(pre, post)] pair of mood scores and is left out when either
    check-in is missing. *)
Definition pair_of (lag : Z) (checkins : list MoodCheckin) (s : ExerciseSession) : option (Z * Z) :=
  pre ← pre_checkin checkins s;
  post ← post_checkin lag checkins s;
  Some (mood_score pre, mood_score post).

(** Modelled from the spec: 4.1 step 1, sessions grouped by exercise type. *)
Definition sessions_of (ty : string) (sessions : list ExerciseSession) : list ExerciseSession :=
  filter (λ s, exercise_type s = ty) sessions.

Definition exercise_types (sessions : list ExerciseSession) : list string :=
  remove_dups (exercise_type <$> sessions).

(** Modelled from the spec: the retained (session, mood_change) pairs of an
    exercise type; [sample_size] is their count (4.1 step 5). *)
Definition retained_pairs (lag : Z) (checkins : list MoodCheckin)
    (sessions : list ExerciseSession) (ty : string) : list (Z * Z) :=
  omap (pair_of lag checkins) (sessions_of ty sessions).

Definition mood_change (p : Z * Z) : Q := inject_Z (snd p - fst p).

Definition pre_score (p : Z * Z) : Q := inject_Z (fst p).

Section Computation.

(** Modelled from the spec: the Pearson coefficient and its two-tailed
    p-value come from a statistics library; [pearsonr xs ys] returns
    [(r, p_value)]. *)
Variable pearsonr : list Q → list Q → Q * Q.

(** Modelled from the spec: the "fixed narrative template" that turns the
    numeric effect into the reasoning text. *)
Variable narrative : Correlation → string.

(** Modelled from the spec: "the global default for that type". *)
Variable global_default : string → Z * Intensity.

(** Modelled from the spec: "for source = rule_based, confidence is a fixed
    constant".  The specification binds no value to it (0.4 is offered as
    an example only) and requires it to be lower than the minimum
    attainable correlation-based confidence at the significance gate. *)
Variable rule_based_confidence : Q.

(** Modelled from the spec: 4.1 steps 4 to 6 for one exercise type.  Below
    the gate no row is built; a constant pre-mood sequence gives
    [correlation_r = 0], [p_value = 1]. *)
Definition correlate (user : string) (now lag : Z) (checkins : list MoodCheckin)
    (sessions : list ExerciseSession) (ty : string) : option Correlation :=
  let pairs := retained_pairs lag checkins sessions ty in
  let n := Z.of_nat (length pairs) in
  if n <? MIN_SAMPLE_SIZE then None
  else
    let pres := pre_score <$> pairs in
    let changes := mood_change <$> pairs in
    let avg := mean changes in
    let stats := if constant pres then (0%Q, 1%Q) else pearsonr pres changes in
    Some {| c_user_id := user;
            c_exercise_type := ty;
            computed_at := now;
            mood_change_avg := avg;
            mood_change_pct := mean ((λ x, avg / x)%Q <$> pres);
            correlation_r := fst stats;
            p_value := snd stats;
            sample_size := n;
            lag_days := lag |}.

(** Modelled from the spec: the Correlation Computer, one row per exercise
    type that passes the gate; the empty history gives the empty set. *)
Definition compute_correlations (user : string) (now lag : Z)
    (checkins : list MoodCheckin) (sessions : list ExerciseSession) : list Correlation :=
  omap (correlate user now lag checkins sessions) (exercise_types sessions).

(** Modelled from the spec: 4.2 step 1, the filter. *)
Definition passes_gate (c : Correlation) : bool :=
  Qltb (p_value c) SIGNIFICANCE
  && (MIN_SAMPLE_SIZE <=? sample_size c)
  && Qltb 0 (mood_change_avg c).

Definition survivors (cs : list Correlation) : list Correlation :=
  filter (λ c, passes_gate c) cs.

(** Modelled from the spec: 4.2 step 2, the ranking: [mood_change_avg]
    descending, then [sample_size] descending, then [exercise_type]
    ascending.  [Lt] means that [a] ranks before [b]. *)
Definition rank_compare (a b : Correlation) : comparison :=
  match (mood_change_avg b ?= mood_change_avg a)%Q with
  | Eq =>
      match sample_size b ?= sample_size a with
      | Eq => OrdersEx.String_as_OT.compare (c_exercise_type a) (c_exercise_type b)
      | o => o
      end
  | o => o
  end.

Definition ranks_first (a b : Correlation) : bool :=
  match rank_compare a b with Gt => false | _ => true end.

Fixpoint insert_ranked (c : Correlation) (l : list Correlation) : list Correlation :=
  match l with
  | [] => [c]
  | x :: xs => if ranks_first c x then c :: x :: xs else x :: insert_ranked c xs
  end.

Definition rank (cs : list Correlation) : list Correlation :=
  foldr insert_ranked [] cs.

(** Modelled from the spec: 4.2 step 3, the top-ranked survivor. *)
Definition top_ranked (cs : list Correlation) : option Correlation :=
  head (rank (survivors cs)).

Definition occurrences {A : Type} `{EqDecision A} (x : A) (l : list A) : nat :=
  length (filter (λ y, y = x) l).

(** Modelled from the spec: "the mode (most frequent)"; among equally
    frequent values the first. *)
Definition mode {A : Type} `{EqDecision A} (l : list A) : option A :=
  foldr (λ x best,
          match best with
          | None => Some x
          | Some y => if (occurrences y l <=? occurrences x l)%nat then Some x else Some y
          end) None l.

(** Modelled from the spec: 4.2 step 3, duration and intensity are the modes
    over the user's sessions of the type, the global default when there is
    at most one such session. *)
Definition suggested (ty : string) (sessions : list ExerciseSession) : Z * Intensity :=
  let mine := sessions_of ty sessions in
  if (length mine <=? 1)%nat then global_default ty
  else (default (fst (global_default ty)) (mode (duration_minutes <$> mine)),
        default (snd (global_default ty)) (mode (intensity <$> mine))).

Definition clamp (lo hi x : Q) : Q := Qmax lo (Qmin hi x).

(** Modelled from the spec: 4.2 step 5,
    [clamp(0, 1, (1 - p_value) * min(1, sample_size / 20))]. *)
Definition confidence_of (p : Q) (n : Z) : Q :=
  clamp 0 1 ((1 - p) * Qmin 1 (inject_Z n / SATURATION))%Q.

Definition correlation_confidence (c : Correlation) : Q :=
  confidence_of (p_value c) (sample_size c).

(** Modelled from the spec: 4.2 step 4, first match wins, the catch-all
    closes the table.  The predicates read the mood score and the tags
    ([manual_tags] and [ai_themes]) of the latest check-in; without a
    check-in only the catch-all applies. *)
Definition tags_of (c : MoodCheckin) : list string :=
  manual_tags c ++ default [] (ai_themes c).

Definition first_match (table : RuleTable) (latest : option MoodCheckin) : Recommendation :=
  match latest with
  | None => catch_all table
  | Some c =>
      match List.find (λ r, applies r (mood_score c) (tags_of c)) (rules table) with
      | Some r => recommends r
      | None => catch_all table
      end
  end.

(** Modelled from the spec: the Prescription Selector. *)
Definition select_prescription (user : string) (now : Z) (table : RuleTable)
    (correlations : list Correlation) (latest : option MoodCheckin)
    (sessions : list ExerciseSession) : Prescription :=
  match top_ranked correlations with
  | Some c =>
      let sug := suggested (c_exercise_type c) sessions in
      {| rx_user_id := user;
         rx_created_at := now;
         rx_exercise_type := c_exercise_type c;
         suggested_duration_minutes := fst sug;
         suggested_intensity := snd sug;
         reasoning := narrative c;
         confidence := correlation_confidence c;
         source := correlation;
         was_followed := None;
         follow_up_mood_score := None |}
  | None =>
      let r := first_match table latest in
      {| rx_user_id := user;
         rx_created_at := now;
         rx_exercise_type := rec_exercise_type r;
         suggested_duration_minutes := rec_duration_minutes r;
         suggested_intensity := rec_intensity r;
         reasoning := rec_reasoning r;
         confidence := rule_based_confidence;
         source := rule_based;
         was_followed := None;
         follow_up_mood_score := None |}
  end.

(** Modelled from the spec: section 2, the selector invokes the computer on
    the user's history and selects from its output. *)
Definition prescribe (user : string) (now lag : Z) (table : RuleTable)
    (checkins : list MoodCheckin) (sessions : list ExerciseSession) : Prescription :=
  select_prescription user now table
    (compute_correlations user now lag checkins sessions)
    (most_recent checkins) sessions.

End Computation.

(** Modelled from the spec: the order of the ranking written out as a
    relation, [a] is strictly better than [b] when its [mood_change_avg] is
    greater, or on a tie its [sample_size] is greater, or on a second tie
    its [exercise_type] comes first lexicographically. *)
Definition outranks (a b : Correlation) : Prop :=
  (mood_change_avg b < mood_change_avg a)%Q
  ∨ ((mood_change_avg a == mood_change_avg b)%Q
     ∧ (sample_size b < sample_size a
        ∨ (sample_size a = sample_size b
           ∧ OrdersEx.String_as_OT.lt (c_exercise_type a) (c_exercise_type b)))).

(** [a] and [b] agree on the three keys of the ranking. *)
Definition same_rank (a b : Correlation) : Prop :=
  (mood_change_avg a == mood_change_avg b)%Q
  ∧ sample_size a = sample_size b
  ∧ c_exercise_type a = c_exercise_type b.

End Engine.

(* ===================================================================== *)
(** * Sample histories *)
(* ===================================================================== *)

Module Samples.
Import Engine.

(** A stand-in for the statistics library in the examples: it reports the
    same coefficient and p-value for every pair of sequences. *)
Definition fixed_stats (r p : Q) : list Q → list Q → Q * Q := λ _ _, (r, p).

Definition plain_narrative : Correlation → string :=
  λ c, ("Based on your own history with " +:+ c_exercise_type c)%string.

Definition walk_default : string → Z * Intensity := λ _, (20, moderate).

(** A rule-based confidence that meets the specification's requirement:
    0.2 is below the gate minimum 0.2375. *)
Definition low_confidence : Q := 2 # 10.

(** A check-in at noon of [day]. *)
Definition checkin_at (day score : Z) (tags : list string) : MoodCheckin :=
  {| timestamp := start_of_day day + 43200; mood_score := score;
     journal_text := None; manual_tags := tags; ai_mood_label := None;
     ai_intensity := None; ai_themes := None; ai_confidence := None |}.

Definition session_on (day : Z) (ty : string) : ExerciseSession :=
  {| date := day; exercise_type := ty; duration_minutes := 30;
     intensity := moderate; session_source := "manual" |}.

(** One check-in a day for a week. *)
Definition week_checkins : list MoodCheckin :=
  [ checkin_at 0 4 []; checkin_at 1 5 []; checkin_at 2 7 []; checkin_at 3 6 [];
    checkin_at 4 8 []; checkin_at 5 7 []; checkin_at 6 9 [] ].

(** Four yoga sessions: one short of the gate. *)
Definition yoga_sessions : list ExerciseSession :=
  [ session_on 1 "yoga"; session_on 2 "yoga"; session_on 3 "yoga"; session_on 4 "yoga" ].

(** Five running sessions: at the gate. *)
Definition running_sessions : list ExerciseSession :=
  [ session_on 1 "running"; session_on 2 "running"; session_on 3 "running";
    session_on 4 "running"; session_on 5 "running" ].

(** The fallback table of the specification's examples: low mood with the
    tag low_energy gives a light walk, high mood with the tag stressed gives
    moderate cardio, anything else a 20-minute moderate walk. *)
Definition example_table : RuleTable :=
  {| rules :=
       [ {| applies := λ score tags, (score <=? 4) && bool_decide ("low_energy"%string ∈ tags);
            recommends := {| rec_exercise_type := "walking"; rec_duration_minutes := 15;
                             rec_intensity := low;
                             rec_reasoning := "A light walk helps when energy is low." |} |};
         {| applies := λ score tags, (7 <=? score) && bool_decide ("stressed"%string ∈ tags);
            recommends := {| rec_exercise_type := "cardio"; rec_duration_minutes := 30;
                             rec_intensity := moderate;
                             rec_reasoning := "Moderate cardio helps with stress." |} |} ];
     catch_all := {| rec_exercise_type := "walking"; rec_duration_minutes := 20;
                     rec_intensity := moderate;
                     rec_reasoning := "A 20-minute walk is a good default." |} |}.

(** Two rows tied on the average mood change, with 8 and 12 samples. *)
Definition cycling_row : Correlation :=
  {| c_user_id := "u1"; c_exercise_type := "cycling"; computed_at := 0;
     mood_change_avg := 2; mood_change_pct := 1 # 2; correlation_r := -(6 # 10);
     p_value := 1 # 100; sample_size := 8; lag_days := 1 |}.

Definition swimming_row : Correlation :=
  {| c_user_id := "u1"; c_exercise_type := "swimming"; computed_at := 0;
     mood_change_avg := 20 # 10; mood_change_pct := 1 # 2; correlation_r := -(6 # 10);
     p_value := 2 # 100; sample_size := 12; lag_days := 1 |}.

(** A row exactly at the gate: 5 samples, p-value 0.049. *)
Definition gate_row : Correlation :=
  {| c_user_id := "u1"; c_exercise_type := "running"; computed_at := 0;
     mood_change_avg := 1; mood_change_pct := 1 # 4; correlation_r := -(9 # 10);
     p_value := 49 # 1000; sample_size := 5; lag_days := 1 |}.

(** A row with 9 samples. *)
Definition nine_row : Correlation :=
  {| c_user_id := "u1"; c_exercise_type := "running"; computed_at := 0;
     mood_change_avg := 1; mood_change_pct := 1 # 4; correlation_r := -(9 # 10);
     p_value := 49 # 1000; sample_size := 9; lag_days := 1 |}.

End Samples.

(* ===================================================================== *)
(** * prescription.tsx: titleCase and the share message *)
(* ===================================================================== *)

Module Text.

(** [\w] without the unicode flag: [A-Za-z0-9_].  A string is its UTF-8
    bytes; every byte of a non-ASCII character is above 127 and so, like
    the character itself, not a word character. *)
Definition is_word_char (c : ascii) : bool :=
  let n := N_of_ascii c in
  ((48 <=? n) && (n <=? 57) || (65 <=? n) && (n <=? 90) || (n =? 95)
   || (97 <=? n) && (n <=? 122))%N.

(** [c.toUpperCase()] for a character [c] matched by [\w]. *)
Definition to_upper (c : ascii) : ascii :=
  let n := N_of_ascii c in
  if ((97 <=? n) && (n <=? 122))%N then ascii_of_N (n - 32) else c.

Definition underscore : ascii := ascii_of_N 95.
Definition space : ascii := ascii_of_N 32.

(** [str.replace(/_/g, ' ')] *)
Fixpoint replace_underscores (s : string) : string :=
  match s with
  | EmptyString => EmptyString
  | String c s' =>
      String (if Ascii.eqb c underscore then space else c) (replace_underscores s')
  end.

(** [str.replace(/\b\w/g, c => c.toUpperCase())]: a word character is
    matched when the character before it is not one ([prev_word] is false
    at the start of the string). *)
Fixpoint capitalize_words (prev_word : bool) (s : string) : string :=
  match s with
  | EmptyString => EmptyString
  | String c s' =>
      String (if is_word_char c && negb prev_word then to_upper c else c)
             (capitalize_words (is_word_char c) s')
  end.

(** [titleCase] *)
Definition titleCase (str : string) : string :=
  capitalize_words false (replace_underscores str).

(** A character of the string satisfies [P]. *)
Fixpoint string_exists (P : ascii → bool) (s : string) : bool :=
  match s with
  | EmptyString => false
  | String c s' => P c || string_exists P s'
  end.

Definition newline : string := String (ascii_of_N 10) EmptyString.

(** The template literal of [handleShare]; the duration is an integer and
    printed in decimal. *)
Definition share_message (p : Hooks.MoodPrescription) : string :=
  ("My MindRep recommendation: " +:+ titleCase (Hooks.exercise_type p)
   +:+ " for " +:+ pretty (Hooks.suggested_duration_minutes p)
   +:+ " min at " +:+ titleCase (Hooks.suggested_intensity p)
   +:+ " intensity." +:+ newline +:+ newline +:+ Hooks.reasoning p)%string.

(** [handleShare]: the message handed to [Share.share], or [None] when the
    handler returns without sharing ([if (!data?.prescription) return]). *)
Definition handleShare (data : option Hooks.PrescriptionResponse) : option string :=
  match data with
  | None => None
  | Some d =>
      match Hooks.prescription d with
      | None => None
      | Some p => Some (share_message p)
      end
  end.

End Text.

(* ===================================================================== *)
(** * CheckInScreen: the form, its payload and its view *)
(* ===================================================================== *)

Module CheckInForm.
Import CheckIn.

(** The journal text is a JavaScript string: a sequence of UTF-16 code
    units. *)
Definition JsString : Type := list N.

(** The code units [String.prototype.trim] strips: ECMAScript WhiteSpace
    (TAB, VT, FF, SP, NBSP, ZWNBSP and the space separators) and
    LineTerminator (LF, CR, LS, PS). *)
Definition is_trim_char (c : N) : bool :=
  ((c =? 9) || (c =? 10) || (c =? 11) || (c =? 12) || (c =? 13) || (c =? 32)
   || (c =? 160) || (c =? 5760) || (8192 <=? c) && (c <=? 8202)
   || (c =? 8232) || (c =? 8233) || (c =? 8239) || (c =? 8287)
   || (c =? 12288) || (c =? 65279))%N.

Fixpoint trimStart (s : JsString) : JsString :=
  match s with
  | [] => []
  | c :: s' => if is_trim_char c then trimStart s' else s
  end.

Definition trimEnd (s : JsString) : JsString :=
  reverse (trimStart (reverse s)).

(** [s.trim()] *)
Definition trim (s : JsString) : JsString := trimEnd (trimStart s).

(** The three [useState] cells of [CheckInScreen]. *)
Record Form : Type := mkForm {
  score : Z;
  journal : JsString;
  selectedTags : list string;
}.

(** [useState(5)], [useState('')], [useState([])] *)
Definition initial_form : Form :=
  {| score := 5; journal := []; selectedTags := [] |}.

(** The object passed to [submit]; an absent key is [None]. *)
Record Payload : Type := mkPayload {
  mood_score : Z;
  journal_text : option JsString;
  manual_tags : option (list string);
}.

(** The argument of [submit] in [handleSubmit]: a string is truthy when it
    is not empty. *)
Definition handleSubmit_payload (f : Form) : Payload :=
  {| mood_score := score f;
     journal_text :=
       match trim (journal f) with
       | [] => None
       | _ :: _ => Some (trim (journal f))
       end;
     manual_tags :=
       if (0 <? length (selectedTags f))%nat then Some (selectedTags f) else None |}.

(** What the user can do on the form: press the [i]-th score box
    ([SCORES.map]), edit the journal, press the [i]-th tag pill
    ([VALID_TAGS.map]), and, through [handleReset], start over. *)
Inductive FormEvent : Type :=
  | PressScore (i : nat)
  | ChangeText (text : JsString)
  | PressTag (i : nat)
  | HandleReset.

Definition form_step (f : Form) (ev : FormEvent) : Form :=
  match ev with
  | PressScore i =>
      match SCORES !! i with
      | Some n => {| score := n; journal := journal f; selectedTags := selectedTags f |}
      | None => f
      end
  | ChangeText text =>
      {| score := score f; journal := text; selectedTags := selectedTags f |}
  | PressTag i =>
      match VALID_TAGS !! i with
      | Some key =>
          {| score := score f; journal := journal f;
             selectedTags := toggleTag key (selectedTags f) |}
      | None => f
      end
  | HandleReset => initial_form
  end.

Definition form_run (evs : list FormEvent) (f : Form) : Form := foldl form_step f evs.

(** What the form keeps under every sequence of events: a score between 1
    and 10 and a duplicate-free selection of valid tags. *)
Definition form_ok (f : Form) : Prop :=
  1 ≤ score f ≤ 10
  ∧ NoDup (selectedTags f)
  ∧ ∀ k, k ∈ selectedTags f → k ∈ VALID_TAGS.

(** What [CheckInScreen] returns: the success view, or the form with its
    submit button ([disabled={status === 'loading'}]) and its error box
    ([status === 'error' && errorMessage && ...]; the empty string is
    falsy). *)
Inductive View : Type :=
  | SuccessView
  | FormView (submit_disabled : bool) (error_box : option string).

Definition CheckInScreen (st : Hooks.HookState Hooks.CheckinResponse) : View :=
  match Hooks.status st with
  | Hooks.success => SuccessView
  | Hooks.loading => FormView true None
  | Hooks.idle => FormView false None
  | Hooks.error =>
      FormView false
        match Hooks.errorMessage st with
        | Some m => if String.eqb m EmptyString then None else Some m
        | None => None
        end
  end.

End CheckInForm.

(* ===================================================================== *)
(** * Schedules driven through a screen *)
(* ===================================================================== *)

Module Driven.
Import Hooks.

(** A schedule of hook updates in which a call begins only when the screen
    offers the control that starts it ([can_begin]), [reset] runs only when
    the screen offers it ([can_reset]), and a request settles only while
    it is pending.  The result is the final cells and the number of pending
    requests, [None] when some event was not possible. *)
Fixpoint driven {R : Type} (can_begin can_reset : HookState R → bool)
    (evs : list (Event R)) (st : HookState R) (pending : nat) : option (HookState R * nat) :=
  match evs with
  | [] => Some (st, pending)
  | EvBegin :: evs' =>
      if can_begin st then driven can_begin can_reset evs' (begin st) (S pending) else None
  | EvSettle o :: evs' =>
      match pending with
      | O => None
      | S n => driven can_begin can_reset evs' (settle o st) n
      end
  | EvReset :: evs' =>
      if can_reset st then driven can_begin can_reset evs' (reset st) pending else None
  end.

(** [CheckInScreen]: [handleSubmit] runs from the enabled submit button of
    the form, [handleReset] from the button of the success view. *)
Definition checkin_can_submit (st : HookState CheckinResponse) : bool :=
  match CheckInForm.CheckInScreen st with
  | CheckInForm.FormView false _ => true
  | _ => false
  end.

Definition checkin_can_reset (st : HookState CheckinResponse) : bool :=
  match CheckInForm.CheckInScreen st with
  | CheckInForm.SuccessView => true
  | _ => false
  end.

(** [PrescriptionScreen]: [fetch] runs from the mount effect (the cells
    still hold their initial status) and from the retry button of the
    error card; the screen never calls [reset]. *)
Definition prescription_can_fetch (st : HookState PrescriptionResponse) : bool :=
  match status st with
  | idle => true
  | _ =>
      match Screen.PrescriptionScreen st with
      | Screen.ErrorCard _ => true
      | _ => false
      end
  end.

Definition prescription_can_reset (st : HookState PrescriptionResponse) : bool := false.

(** The number of requests pending after a schedule. *)
Fixpoint in_flight {R : Type} (pending : nat) (evs : list (Event R)) : nat :=
  match evs with
  | [] => pending
  | EvBegin :: evs' => in_flight (S pending) evs'
  | EvSettle _ :: evs' => in_flight (pred pending) evs'
  | EvReset :: evs' => in_flight pending evs'
  end.

(** What a driven schedule keeps: at most one request is pending, exactly
    while the status is loading, and each status is backed by its cells. *)
Definition serialised {R : Type} (st : HookState R) (pending : nat) : Prop :=
  (pending ≤ 1)%nat
  ∧ (status st = loading ↔ pending = 1%nat)
  ∧ (status st = loading → errorMessage st = None)
  ∧ (status st = success → errorMessage st = None)
  ∧ (status st = error → is_Some (errorMessage st))
  ∧ (status st = idle → errorMessage st = None).

End Driven.

(* ===================================================================== *)
(** * The SQL schema: row-level security *)
(* ===================================================================== *)

Module Policies.

Inductive Table : Type :=
  | users | mood_checkins | wearable_daily | exercise_sessions
  | mood_prescriptions | user_correlations.

Inductive Command : Type := SELECT | INSERT | UPDATE | DELETE.

(** The column a policy compares with [auth.uid()]. *)
Inductive Column : Type := id | user_id.

#[global] Instance Table_eq_dec : EqDecision Table.
Proof. solve_decision. Defined.

#[global] Instance Command_eq_dec : EqDecision Command.
Proof. solve_decision. Defined.

#[global] Instance Column_eq_dec : EqDecision Column.
Proof. solve_decision. Defined.

(** [CREATE POLICY name ON table FOR command USING / WITH CHECK
    (auth.uid() = column)]. *)
Record Policy : Type := mkPolicy {
  policy_name : string;
  on_table : Table;
  for_command : Command;
  uid_column : Column;
}.

(** The fourteen policies of the schema, in its order. *)
Definition policies : list Policy :=
  [ mkPolicy "Users can view own data" users SELECT id;
    mkPolicy "Users can update own data" users UPDATE id;
    mkPolicy "Users can view own checkins" mood_checkins SELECT user_id;
    mkPolicy "Users can insert own checkins" mood_checkins INSERT user_id;
    mkPolicy "Users can delete own checkins" mood_checkins DELETE user_id;
    mkPolicy "Users can view own wearable data" wearable_daily SELECT user_id;
    mkPolicy "Users can insert own wearable data" wearable_daily INSERT user_id;
    mkPolicy "Users can delete own wearable data" wearable_daily DELETE user_id;
    mkPolicy "Users can view own exercises" exercise_sessions SELECT user_id;
    mkPolicy "Users can insert own exercises" exercise_sessions INSERT user_id;
    mkPolicy "Users can update own exercises" exercise_sessions UPDATE user_id;
    mkPolicy "Users can delete own exercises" exercise_sessions DELETE user_id;
    mkPolicy "Users can view own prescriptions" mood_prescriptions SELECT user_id;
    mkPolicy "Users can view own correlations" user_correlations SELECT user_id ].

(** [ALTER TABLE ... ENABLE ROW LEVEL SECURITY], issued for all six tables. *)
Definition rls_enabled (t : Table) : bool :=
  match t with
  | users | mood_checkins | wearable_daily | exercise_sessions
  | mood_prescriptions | user_correlations => true
  end.

(** The columns of a row that the policies read ([users] has no [user_id]
    column; no policy on it reads one). *)
Record Row : Type := mkRow {
  row_id : string;
  row_user_id : string;
}.

Definition column_value (c : Column) (r : Row) : string :=
  match c with
  | id => row_id r
  | user_id => row_user_id r
  end.

(** [auth.uid() = column]: unknown, hence not satisfied, when nobody is
    signed in ([uid] is [None]). *)
Definition policy_admits (uid : option string) (p : Policy) (r : Row) : bool :=
  bool_decide (uid = Some (column_value (uid_column p) r)).

(** Whether a role subject to row-level security may run [cmd] on row [r]
    of table [t]: with row-level security enabled, some policy for that
    table and command has to admit the row; no policy means no access. *)
Definition permitted (uid : option string) (t : Table) (cmd : Command) (r : Row) : bool :=
  if rls_enabled t then
    existsb (λ p, bool_decide (on_table p = t) && bool_decide (for_command p = cmd)
                  && policy_admits uid p r) policies
  else true.

(** An UPDATE policy with only a USING clause checks the row before and
    the row after the update. *)
Definition update_permitted (uid : option string) (t : Table) (old new : Row) : bool :=
  permitted uid t UPDATE old && permitted uid t UPDATE new.

(** The user a row belongs to. *)
Definition owner (t : Table) (r : Row) : string :=
  match t with
  | users => row_id r
  | _ => row_user_id r
  end.

End Policies.

(* ===================================================================== *)
(** * The SQL schema: the six tables as a state *)
(* ===================================================================== *)

Module Database.
Import Schema.

Record users : Type := mk_users {
  u_id : option string;
  email : option string;
  u_created_at : option Z;
  date_of_birth : option Z;
  timezone : option string;
  mood_data_consent : option bool;
  mood_data_consent_at : option Z;
  ai_processing_consent : option bool;
  ai_processing_consent_at : option Z;
  wearable_data_consent : option bool;
  wearable_data_consent_at : option Z;
  is_premium : option bool;
  premium_since : option Z;
  onboarding_completed : option bool;
}.

Record wearable_daily : Type := mk_wearable_daily {
  w_id : option string;
  w_user_id : option string;
  w_date : option Z;
  w_source : option string;
  hrv_avg : option Q;
  hrv_min : option Q;
  hrv_max : option Q;
  resting_hr : option Q;
  sleep_duration_minutes : option Z;
  sleep_deep_minutes : option Z;
  sleep_rem_minutes : option Z;
  sleep_score : option Q;
  readiness_score : option Q;
  steps : option Z;
  active_calories : option Q;
}.

Record mood_prescriptions : Type := mk_mood_prescriptions {
  mp_id : option string;
  mp_user_id : option string;
  mp_created_at : option Z;
  mp_exercise_type : option string;
  suggested_duration_minutes : option Z;
  suggested_intensity : option string;
  reasoning : option string;
  confidence : option Q;
  mp_source : option string;
  was_followed : option bool;
  follow_up_mood_score : option Z;
}.

Record user_correlations : Type := mk_user_correlations {
  uc_id : option string;
  uc_user_id : option string;
  computed_at : option Z;
  uc_exercise_type : option string;
  mood_change_avg : option Q;
  mood_change_pct : option Q;
  correlation_r : option Q;
  p_value : option Q;
  sample_size : option Z;
  lag_days : option Z;
  insight_text : option string;
}.

(** The column constraints of [CREATE TABLE users]. *)
Definition users_accepts (r : users) : bool :=
  not_null (u_id r) && not_null (email r) && not_null (date_of_birth r).

(** The column constraints of [CREATE TABLE wearable_daily]. *)
Definition wearable_daily_accepts (ids : gset string) (r : wearable_daily) : bool :=
  not_null (w_id r)
  && not_null (w_user_id r) && references ids (w_user_id r)
  && not_null (w_date r) && not_null (w_source r)
  && check is_integer (sleep_duration_minutes r)
  && check is_integer (sleep_deep_minutes r)
  && check is_integer (sleep_rem_minutes r)
  && check is_integer (steps r).

(** The column constraints of [CREATE TABLE mood_prescriptions]. *)
Definition mood_prescriptions_accepts (ids : gset string) (r : mood_prescriptions) : bool :=
  not_null (mp_id r)
  && not_null (mp_user_id r) && references ids (mp_user_id r)
  && not_null (mp_exercise_type r)
  && check is_integer (suggested_duration_minutes r)
  && check is_integer (follow_up_mood_score r).

(** The column constraints of [CREATE TABLE user_correlations]. *)
Definition user_correlations_accepts (ids : gset string) (r : user_correlations) : bool :=
  not_null (uc_id r)
  && not_null (uc_user_id r) && references ids (uc_user_id r)
  && check is_integer (sample_size r)
  && check is_integer (lag_days r).

(** The stored rows of the six tables. *)
Record DB : Type := mkDB {
  t_users : list users;
  t_mood_checkins : list Schema.mood_checkins;
  t_wearable_daily : list wearable_daily;
  t_exercise_sessions : list Schema.exercise_sessions;
  t_mood_prescriptions : list mood_prescriptions;
  t_user_correlations : list user_correlations;
}.

Definition empty : DB := mkDB [] [] [] [] [] [].

(** The ids of the stored users: what [REFERENCES users(id)] looks up. *)
Definition user_ids (db : DB) : gset string :=
  list_to_set (omap u_id (t_users db)).

(** [PRIMARY KEY] and [UNIQUE]: the new key is not among the stored ones. *)
Definition fresh {K : Type} `{EqDecision K} (k : K) (stored : list K) : bool :=
  bool_decide (k ∉ stored).

(** The key of [UNIQUE(user_id, date, source)]. *)
Definition wearable_key (r : wearable_daily) : option string * option Z * option string :=
  (w_user_id r, w_date r, w_source r).

(** The statements that change the state. *)
Inductive Statement : Type :=
  | InsertUser (r : users)
  | InsertCheckin (r : Schema.mood_checkins)
  | InsertWearable (r : wearable_daily)
  | InsertSession (r : Schema.exercise_sessions)
  | InsertPrescription (r : mood_prescriptions)
  | InsertCorrelation (r : user_correlations)
  | DeleteUser (uid : string).

(** [DELETE FROM users WHERE id = uid]: every foreign key is declared
    [ON DELETE CASCADE], so the rows that reference the user go with it. *)
Definition delete_user (uid : string) (db : DB) : DB :=
  {| t_users := filter (λ r, u_id r ≠ Some uid) (t_users db);
     t_mood_checkins := filter (λ r, mc_user_id r ≠ Some uid) (t_mood_checkins db);
     t_wearable_daily := filter (λ r, w_user_id r ≠ Some uid) (t_wearable_daily db);
     t_exercise_sessions := filter (λ r, es_user_id r ≠ Some uid) (t_exercise_sessions db);
     t_mood_prescriptions := filter (λ r, mp_user_id r ≠ Some uid) (t_mood_prescriptions db);
     t_user_correlations := filter (λ r, uc_user_id r ≠ Some uid) (t_user_correlations db) |}.

(** One statement: the new state, or [None] when a constraint rejects it. *)
Definition execute (db : DB) (stmt : Statement) : option DB :=
  match stmt with
  | InsertUser r =>
      if users_accepts r && fresh (u_id r) (u_id <$> t_users db)
         && fresh (email r) (email <$> t_users db)
      then Some {| t_users := t_users db ++ [r];
                   t_mood_checkins := t_mood_checkins db;
                   t_wearable_daily := t_wearable_daily db;
                   t_exercise_sessions := t_exercise_sessions db;
                   t_mood_prescriptions := t_mood_prescriptions db;
                   t_user_correlations := t_user_correlations db |}
      else None
  | InsertCheckin r =>
      if mood_checkins_accepts (user_ids db) r && fresh (mc_id r) (mc_id <$> t_mood_checkins db)
      then Some {| t_users := t_users db;
                   t_mood_checkins := t_mood_checkins db ++ [r];
                   t_wearable_daily := t_wearable_daily db;
                   t_exercise_sessions := t_exercise_sessions db;
                   t_mood_prescriptions := t_mood_prescriptions db;
                   t_user_correlations := t_user_correlations db |}
      else None
  | InsertWearable r =>
      if wearable_daily_accepts (user_ids db) r
         && fresh (w_id r) (w_id <$> t_wearable_daily db)
         && fresh (wearable_key r) (wearable_key <$> t_wearable_daily db)
      then Some {| t_users := t_users db;
                   t_mood_checkins := t_mood_checkins db;
                   t_wearable_daily := t_wearable_daily db ++ [r];
                   t_exercise_sessions := t_exercise_sessions db;
                   t_mood_prescriptions := t_mood_prescriptions db;
                   t_user_correlations := t_user_correlations db |}
      else None
  | InsertSession r =>
      if exercise_sessions_accepts (user_ids db) r
         && fresh (es_id r) (es_id <$> t_exercise_sessions db)
      then Some {| t_users := t_users db;
                   t_mood_checkins := t_mood_checkins db;
                   t_wearable_daily := t_wearable_daily db;
                   t_exercise_sessions := t_exercise_sessions db ++ [r];
                   t_mood_prescriptions := t_mood_prescriptions db;
                   t_user_correlations := t_user_correlations db |}
      else None
  | InsertPrescription r =>
      if mood_prescriptions_accepts (user_ids db) r
         && fresh (mp_id r) (mp_id <$> t_mood_prescriptions db)
      then Some {| t_users := t_users db;
                   t_mood_checkins := t_mood_checkins db;
                   t_wearable_daily := t_wearable_daily db;
                   t_exercise_sessions := t_exercise_sessions db;
                   t_mood_prescriptions := t_mood_prescriptions db ++ [r];
                   t_user_correlations := t_user_correlations db |}
      else None
  | InsertCorrelation r =>
      if user_correlations_accepts (user_ids db) r
         && fresh (uc_id r) (uc_id <$> t_user_correlations db)
      then Some {| t_users := t_users db;
                   t_mood_checkins := t_mood_checkins db;
                   t_wearable_daily := t_wearable_daily db;
                   t_exercise_sessions := t_exercise_sessions db;
                   t_mood_prescriptions := t_mood_prescriptions db;
                   t_user_correlations := t_user_correlations db ++ [r] |}
      else None
  | DeleteUser uid => Some (delete_user uid db)
  end.

(** A rejected statement leaves the state as it was. *)
Definition run (stmts : list Statement) (db : DB) : DB :=
  foldl (λ d stmt, default d (execute d stmt)) db stmts.

(** Every stored row satisfies the column constraints of its table, the
    foreign keys being looked up among the users stored now. *)
Definition constraints_hold (db : DB) : Prop :=
  Forall (λ r, users_accepts r = true) (t_users db)
  ∧ Forall (λ r, mood_checkins_accepts (user_ids db) r = true) (t_mood_checkins db)
  ∧ Forall (λ r, wearable_daily_accepts (user_ids db) r = true) (t_wearable_daily db)
  ∧ Forall (λ r, exercise_sessions_accepts (user_ids db) r = true) (t_exercise_sessions db)
  ∧ Forall (λ r, mood_prescriptions_accepts (user_ids db) r = true) (t_mood_prescriptions db)
  ∧ Forall (λ r, user_correlations_accepts (user_ids db) r = true) (t_user_correlations db).

(** No two stored rows share a primary key, two users an email, or two
    wearable rows their (user_id, date, source). *)
Definition keys_unique (db : DB) : Prop :=
  NoDup (u_id <$> t_users db)
  ∧ NoDup (email <$> t_users db)
  ∧ NoDup (mc_id <$> t_mood_checkins db)
  ∧ NoDup (w_id <$> t_wearable_daily db)
  ∧ NoDup (wearable_key <$> t_wearable_daily db)
  ∧ NoDup (es_id <$> t_exercise_sessions db)
  ∧ NoDup (mp_id <$> t_mood_prescriptions db)
  ∧ NoDup (uc_id <$> t_user_correlations db).

End Database.

(* ===================================================================== *)
(** * Sample rows *)
(* ===================================================================== *)

Module Rows.
Import Schema Database.

Definition alice : users :=
  {| u_id := Some "u1"%string; email := Some "alice@example.org"%string;
     u_created_at := Some 0; date_of_birth := Some 7300;
     timezone := Some "Europe/London"%string;
     mood_data_consent := Some true; mood_data_consent_at := Some 0;
     ai_processing_consent := Some false; ai_processing_consent_at := None;
     wearable_data_consent := Some false; wearable_data_consent_at := None;
     is_premium := Some false; premium_since := None;
     onboarding_completed := Some true |}.

Definition checkin (id : string) (user : string) (score : Z) : mood_checkins :=
  {| mc_id := Some id; mc_user_id := Some user; mc_created_at := Some 0;
     mood_score := Some score; journal_text := None; manual_tags := None;
     ai_mood_label := None; ai_intensity := None; ai_themes := None;
     ai_confidence := None; ai_processed := Some false |}.

Definition session (id : string) (user : string) (minutes : Z) : exercise_sessions :=
  {| es_id := Some id; es_user_id := Some user; es_created_at := Some 0;
     date := Some 20458; exercise_type := Some "running"%string;
     duration_minutes := Some minutes; intensity := Some "moderate"%string;
     avg_heart_rate := None; calories := None; source := Some "manual"%string;
     notes := None |}.

(** A user, a check-in, a check-in with a score out of range, a check-in
    for an unknown user, and a session. *)
Definition statements : list Statement :=
  [ InsertUser alice;
    InsertCheckin (checkin "m1" "u1" 7);
    InsertCheckin (checkin "m2" "u1" 11);
    InsertCheckin (checkin "m3" "u9" 5);
    InsertSession (session "e1" "u1" 30) ].

End Rows.

(* ===================================================================== *)
(** * Theorems *)
(* ===================================================================== *)

Section ToggleTag.
Import CheckIn.

Lemma toggleTag_present key prev :
  key ∈ prev → toggleTag key prev = filter (λ t, t ≠ key) prev.
Proof. intros H. unfold toggleTag. by rewrite bool_decide_eq_true_2. Qed.

Lemma toggleTag_absent key prev :
  key ∉ prev → toggleTag key prev = prev ++ [key].
Proof. intros H. unfold toggleTag. by rewrite bool_decide_eq_false_2. Qed.

Lemma toggleTag_key key prev : key ∈ toggleTag key prev ↔ key ∉ prev.
Proof.
  destruct (decide (key ∈ prev)) as [Hin | Hout].
  - rewrite toggleTag_present by done. rewrite list_elem_of_filter. tauto.
  - rewrite toggleTag_absent by done. rewrite elem_of_app, list_elem_of_singleton.
    tauto.
Qed.

Lemma toggleTag_other key prev k :
  k ≠ key → k ∈ toggleTag key prev ↔ k ∈ prev.
Proof.
  intros Hne. destruct (decide (key ∈ prev)) as [Hin | Hout].
  - rewrite toggleTag_present by done. rewrite list_elem_of_filter. tauto.
  - rewrite toggleTag_absent by done. rewrite elem_of_app, list_elem_of_singleton.
    tauto.
Qed.

Lemma toggleTag_NoDup key prev : NoDup prev → NoDup (toggleTag key prev).
Proof.
  intros Hnd. destruct (decide (key ∈ prev)) as [Hin | Hout].
  - rewrite toggleTag_present by done. by apply NoDup_filter.
  - rewrite toggleTag_absent by done. apply NoDup_app. split_and!; [done | | apply NoDup_singleton].
    intros x Hx ->%list_elem_of_singleton. done.
Qed.

End ToggleTag.

(** C10. On a duplicate-free list of selected tags, [toggleTag key] flips the
    membership of [key] and of no other key; the list stays duplicate-free,
    and toggling the same key twice gives back the same set of tags. *)
Theorem toggleTag_flips_exactly_key (key : string) (prev : list string) :
  NoDup prev →
  (key ∈ CheckIn.toggleTag key prev ↔ key ∉ prev)
  ∧ (∀ k, k ≠ key → (k ∈ CheckIn.toggleTag key prev ↔ k ∈ prev))
  ∧ NoDup (CheckIn.toggleTag key prev)
  ∧ (∀ k, k ∈ CheckIn.toggleTag key (CheckIn.toggleTag key prev) ↔ k ∈ prev).
Proof.
  intros Hnd. split_and!.
  - apply toggleTag_key.
  - intros k. apply toggleTag_other.
  - by apply toggleTag_NoDup.
  - intros k. destruct (decide (k = key)) as [-> | Hne].
    + rewrite !toggleTag_key. destruct (decide (key ∈ prev)); tauto.
    + by rewrite !toggleTag_other.
Qed.

Lemma toggleTag_flips_exactly_key_witness :
  NoDup ["calm"; "happy"]%string
  ∧ CheckIn.toggleTag "calm" ["calm"; "happy"]%string = ["happy"]%string
  ∧ ("calm"%string ∈ CheckIn.toggleTag "calm" ["calm"; "happy"]%string
     ↔ "calm"%string ∉ ["calm"; "happy"]%string).
Proof.
  assert (Hnd : NoDup ["calm"; "happy"]%string) by (apply (bool_decide_unpack _); vm_compute; exact I).
  split; [exact Hnd |]. split; [reflexivity |].
  exact (proj1 (toggleTag_flips_exactly_key "calm" ["calm"; "happy"]%string Hnd)).
Defined.

(* --------------------------------------------------------------------- *)
(** ** apiFetch *)
(* --------------------------------------------------------------------- *)

Section ApiFetch.
Import Api.
Context {T : Type}.
Implicit Types (session : option string) (options : RequestInit) (res : Response T).

Lemma authHeader_content_type session :
  authHeader session !! "Content-Type"%string = None.
Proof. destruct session as [tok |]; simpl; [by rewrite lookup_singleton_ne | apply lookup_empty]. Qed.

Lemma merged_headers_content_type session options :
  merged_headers session options !! "Content-Type"%string
  = Some (default "application/json"%string
            (headers options ≫= (λ h, h !! "Content-Type"%string))).
Proof.
  unfold merged_headers. rewrite lookup_union.
  rewrite (lookup_union (authHeader session)), authHeader_content_type, lookup_singleton_eq.
  destruct (headers options) as [h |]; simpl.
  - by destruct (h !! "Content-Type"%string).
  - by rewrite lookup_empty.
Qed.

Lemma merged_headers_caller session options h k v :
  headers options = Some h → h !! k = Some v →
  merged_headers session options !! k = Some v.
Proof.
  intros Hh Hk. unfold merged_headers. rewrite Hh. simpl.
  by apply lookup_union_Some_l.
Qed.

Lemma apiFetch_not_ok session fetch path options res :
  fetch (request session path options) = Responded res → ok res = false →
  apiFetch session fetch path options
  = Rejected (JsError ("API " +:+ pretty (status res) +:+ ": " +:+ text res)%string).
Proof. intros Hres Hok. unfold apiFetch. by rewrite Hres, Hok. Qed.

Lemma apiFetch_ok session fetch path options res :
  fetch (request session path options) = Responded res → ok res = true →
  apiFetch session fetch path options
  = match json res with
    | Parsed v => Resolved v
    | NotJson m => Rejected (SyntaxError m)
    end.
Proof. intros Hres Hok. unfold apiFetch. by rewrite Hres, Hok. Qed.

End ApiFetch.

(** C8. Whatever response the server gives, [apiFetch] rejects with the
    [Error] whose message is "API <status>: <body>" exactly when the
    response is not ok; an ok response resolves to its parsed JSON body; and
    the request carries a Content-Type header that is application/json
    unless the caller's own headers give another value. *)
Theorem apiFetch_rejects_iff_not_ok {T : Type} (session : option string)
    (fetch : Api.Request → Api.FetchOutcome T) (path : string)
    (options : Api.RequestInit) (res : Api.Response T) :
  fetch (Api.request session path options) = Api.Responded res →
  (Api.ok res = false
   ↔ Api.apiFetch session fetch path options
     = Api.Rejected (Api.JsError ("API " +:+ pretty (Api.status res) +:+ ": " +:+ Api.text res)%string))
  ∧ (Api.ok res = false
     ↔ ∃ m, Api.apiFetch session fetch path options = Api.Rejected (Api.JsError m))
  ∧ (Api.ok res = true →
     ∀ v, Api.json res = Api.Parsed v → Api.apiFetch session fetch path options = Api.Resolved v)
  ∧ Api.req_headers (Api.request session path options) !! "Content-Type"%string
    = Some (default "application/json"%string
              (Api.headers options ≫= (λ h, h !! "Content-Type"%string))).
Proof.
  intros Hres. split_and!.
  - split; [by apply apiFetch_not_ok |].
    intros Hrej. destruct (Api.ok res) eqn:Hok; [| done].
    rewrite (apiFetch_ok _ _ _ _ _ Hres Hok) in Hrej. by destruct (Api.json res).
  - split; [intros Hok; eexists; by apply apiFetch_not_ok |].
    intros [m Hrej]. destruct (Api.ok res) eqn:Hok; [| done].
    rewrite (apiFetch_ok _ _ _ _ _ Hres Hok) in Hrej. by destruct (Api.json res).
  - intros Hok v Hv. rewrite (apiFetch_ok _ _ _ _ _ Hres Hok). by rewrite Hv.
  - apply merged_headers_content_type.
Qed.

Lemma apiFetch_rejects_iff_not_ok_witness :
  let res : Api.Response Z :=
    {| Api.ok := false; Api.status := 404; Api.text := "{}"; Api.json := Api.NotJson "Unexpected end of JSON input" |} in
  Api.apiFetch None (λ _, Api.Responded res) "/prescriptions/today" Api.no_options
  = Api.Rejected (Api.JsError "API 404: {}").
Proof.
  intros res.
  exact (proj1 (proj1 (apiFetch_rejects_iff_not_ok None (λ _, Api.Responded res)
                         "/prescriptions/today" Api.no_options res eq_refl)) eq_refl).
Defined.

(* --------------------------------------------------------------------- *)
(** ** The request hooks *)
(* --------------------------------------------------------------------- *)

Section HookCalls.
Import Api Hooks.
Context {R : Type}.
Implicit Types (st : HookState R) (o : Settled R) (evs : list (Event R)).

Lemma call_resolved data st :
  call (Resolved data) st
  = {| status := success; errorMessage := None; result := Some data |}.
Proof. reflexivity. Qed.

Lemma call_rejected e st :
  call (Rejected e) st
  = {| status := error; errorMessage := Some (message_of e); result := result st |}.
Proof. reflexivity. Qed.

Lemma call_success o st :
  status (call o st) = success →
  errorMessage (call o st) = None ∧ ∃ data, o = Resolved data ∧ result (call o st) = Some data.
Proof. destruct o as [data | e]; [eauto | discriminate]. Qed.

Lemma call_error o st :
  status (call o st) = error → is_Some (errorMessage (call o st)).
Proof. destruct o as [data | e]; [discriminate | eauto]. Qed.

Lemma step_settled_well st ev : settled_well st → settled_well (step st ev).
Proof.
  unfold settled_well. intros Herr.
  destruct ev as [| [data | e] |]; simpl; try discriminate; eauto.
Qed.

Lemma run_settled_well evs st : settled_well st → settled_well (run evs st).
Proof.
  revert st. induction evs as [| ev evs IH]; intros st Hst; [done |].
  apply IH. by apply step_settled_well.
Qed.

Lemma run_from_initial evs : settled_well (run evs (@initial R)).
Proof. apply run_settled_well. unfold settled_well. discriminate. Qed.

Lemma run_snoc evs ev st : run (evs ++ [ev]) st = step (run evs st) ev.
Proof. unfold run. by rewrite foldl_app. Qed.

(** A call whose two halves are adjacent in the schedule leaves the cells
    as [call] does. *)
Lemma run_adjacent_call evs o st :
  run (evs ++ [EvBegin; EvSettle o]) st = call o (run evs st).
Proof. unfold run. by rewrite foldl_app. Qed.

End HookCalls.

(** C9 (as amended). In both hooks, a [submit] / [fetch] call that runs from
    start to completion with no other update of the hook in between leaves
    the state with: status success implies errorMessage null and the result
    (data) equal to the API response; status error implies errorMessage
    non-null.  [reset] gives status idle with errorMessage and result
    (data) null. *)
Theorem hook_state_after_call :
  (∀ session net payload (st : Hooks.HookState Hooks.CheckinResponse),
     let st' := Hooks.submit session net payload st in
     (Hooks.status st' = Hooks.success →
        Hooks.errorMessage st' = None
        ∧ ∃ data, Api.post session net "/mood/checkin" payload = Api.Resolved data
                  ∧ Hooks.result st' = Some data)
     ∧ (Hooks.status st' = Hooks.error → is_Some (Hooks.errorMessage st'))
     ∧ Hooks.reset st = {| Hooks.status := Hooks.idle; Hooks.errorMessage := None;
                           Hooks.result := None |})
  ∧ (∀ session net (st : Hooks.HookState Hooks.PrescriptionResponse),
       let st' := Hooks.fetch session net st in
       (Hooks.status st' = Hooks.success →
          Hooks.errorMessage st' = None
          ∧ ∃ data, Api.get session net "/prescriptions/today" = Api.Resolved data
                    ∧ Hooks.result st' = Some data)
       ∧ (Hooks.status st' = Hooks.error → is_Some (Hooks.errorMessage st'))
       ∧ Hooks.reset st = {| Hooks.status := Hooks.idle; Hooks.errorMessage := None;
                             Hooks.result := None |}).
Proof.
  split.
  - intros session net payload st st'. split_and!.
    + apply call_success.
    + apply call_error.
    + reflexivity.
  - intros session net st st'. split_and!.
    + apply call_success.
    + apply call_error.
    + reflexivity.
Qed.

Lemma hook_state_after_call_witness :
  let data := {| Hooks.prescription := None; Hooks.has_data := false;
                 Hooks.disclaimer := "MindRep is a wellness tool, not a medical device." |} in
  let res := {| Api.ok := true; Api.status := 200; Api.text := "{}";
                Api.json := Api.Parsed data |} in
  let st' := Hooks.fetch None (λ _, Api.Responded res)
               {| Hooks.status := Hooks.error; Hooks.errorMessage := Some "API 500: down"%string;
                  Hooks.result := None |} in
  Hooks.status st' = Hooks.success ∧ Hooks.errorMessage st' = None.
Proof.
  intros data res st'. split; [reflexivity |].
  exact (proj1 (proj1 (proj2 hook_state_after_call None (λ _, Api.Responded res) _) eq_refl)).
Defined.

(** C9 does not hold for every schedule: two overlapping [submit] calls, the
    first rejected after the second has begun, the second then resolved,
    end in status success with the first call's error message still set. *)
Lemma overlapping_submit_keeps_error_message :
  let data := {| Hooks.id := "c1"; Hooks.created_at := "2026-01-05T08:00:00Z";
                 Hooks.mood_score := 6; Hooks.journal_text_stored := false;
                 Hooks.ai_processed := false; Hooks.classification := None;
                 Hooks.manual_tags := None |} in
  let evs := [ Hooks.EvBegin; Hooks.EvBegin;
               Hooks.EvSettle (Api.Rejected (Api.JsError "API 500: down"));
               Hooks.EvSettle (Api.Resolved data) ] in
  Hooks.realisable 0 evs = true
  ∧ Hooks.run evs Hooks.initial
    = {| Hooks.status := Hooks.success;
         Hooks.errorMessage := Some "API 500: down"%string;
         Hooks.result := Some data |}
  ∧ ¬ (Hooks.status (Hooks.run evs Hooks.initial) = Hooks.success →
       Hooks.errorMessage (Hooks.run evs Hooks.initial) = None).
Proof.
  intros data evs. split_and!; [reflexivity | reflexivity |].
  intros H. specialize (H eq_refl). discriminate H.
Qed.

(* --------------------------------------------------------------------- *)
(** ** What the prescription screen shows *)
(* --------------------------------------------------------------------- *)

Section ScreenFacts.
Import Hooks Screen.
Implicit Types (st : HookState PrescriptionResponse).

Lemma screen_recommendation_inv st p disc :
  PrescriptionScreen st = RecommendationCard p disc →
  status st = success
  ∧ ∃ d, result st = Some d ∧ has_data d = true ∧ prescription d = Some p ∧ disclaimer d = disc.
Proof.
  unfold PrescriptionScreen.
  destruct (status st); try discriminate.
  destruct (result st) as [d |]; [| discriminate].
  destruct (has_data d) eqn:Hd; [| discriminate]. simpl.
  destruct (prescription d) as [q |] eqn:Hp; [| discriminate].
  intros [= -> <-]. eauto 10.
Qed.

Lemma screen_recommendation_intro st d p :
  status st = success → result st = Some d → has_data d = true → prescription d = Some p →
  PrescriptionScreen st = RecommendationCard p (disclaimer d).
Proof. intros Hs Hr Hd Hp. unfold PrescriptionScreen. by rewrite Hs, Hr, Hd, Hp. Qed.

Lemma screen_empty st d :
  status st = success → result st = Some d →
  has_data d = false ∨ prescription d = None →
  PrescriptionScreen st = EmptyCard (disclaimer d).
Proof.
  intros Hs Hr Hnone. unfold PrescriptionScreen. rewrite Hs, Hr.
  destruct (has_data d); simpl; [| done].
  destruct Hnone as [? | ->]; done.
Qed.

End ScreenFacts.

(** X23. The prescription screen shows a recommendation, the prescription
    of the response in the cells, if and only if the status is success and
    the response has [has_data] true and a non-null [prescription]; a
    successful response without one is shown as the empty state. *)
Theorem screen_shows_response_prescription (st : Hooks.HookState Hooks.PrescriptionResponse) :
  (Screen.shows_recommendation (Screen.PrescriptionScreen st) = true
   ↔ Hooks.status st = Hooks.success
     ∧ ∃ d p, Hooks.result st = Some d ∧ Hooks.has_data d = true ∧ Hooks.prescription d = Some p)
  ∧ (∀ p disc, Screen.PrescriptionScreen st = Screen.RecommendationCard p disc →
       ∃ d, Hooks.result st = Some d ∧ Hooks.prescription d = Some p)
  ∧ (∀ d, Hooks.status st = Hooks.success → Hooks.result st = Some d →
       Hooks.has_data d = false ∨ Hooks.prescription d = None →
       Screen.PrescriptionScreen st = Screen.EmptyCard (Hooks.disclaimer d)).
Proof.
  split_and!.
  - split.
    + destruct (Screen.PrescriptionScreen st) as [| m | disc | p disc] eqn:Hv; try discriminate.
      intros _. apply screen_recommendation_inv in Hv as (Hs & d & Hr & Hd & Hp & _). eauto 10.
    + intros (Hs & d & p & Hr & Hd & Hp).
      by rewrite (screen_recommendation_intro st d p Hs Hr Hd Hp).
  - intros p disc Hv. apply screen_recommendation_inv in Hv as (_ & d & Hr & _ & Hp & _). eauto.
  - intros d. apply screen_empty.
Qed.

Lemma screen_shows_response_prescription_witness :
  let p := {| Hooks.p_id := "p1"; Hooks.p_created_at := "2026-01-05T08:00:00Z";
              Hooks.exercise_type := "walking"; Hooks.suggested_duration_minutes := 20;
              Hooks.suggested_intensity := "moderate"; Hooks.reasoning := "A short walk.";
              Hooks.p_confidence := 4 # 10; Hooks.source := "rule_based" |} in
  let d := {| Hooks.prescription := Some p; Hooks.has_data := true;
              Hooks.disclaimer := Screen.default_disclaimer |} in
  Screen.shows_recommendation
    (Screen.PrescriptionScreen
       {| Hooks.status := Hooks.success; Hooks.errorMessage := None; Hooks.result := Some d |})
  = true.
Proof.
  intros p d.
  apply (proj2 (proj1 (screen_shows_response_prescription
                         {| Hooks.status := Hooks.success; Hooks.errorMessage := None;
                            Hooks.result := Some d |}))).
  split; [reflexivity |]. exists d, p. split_and!; reflexivity.
Defined.

(** A response without a prescription, which the response type allows
    ([prescription] null, [has_data] false): the fetch succeeds and the
    screen shows the empty state. *)
Lemma response_without_prescription_shows_empty_state :
  let d := {| Hooks.prescription := None; Hooks.has_data := false;
              Hooks.disclaimer := Screen.default_disclaimer |} in
  let res := {| Api.ok := true; Api.status := 200; Api.text := "{}";
                Api.json := Api.Parsed d |} in
  let st := Hooks.fetch None (λ _, Api.Responded res) Hooks.initial in
  Hooks.status st = Hooks.success
  ∧ Hooks.result st = Some d
  ∧ Hooks.prescription d = None
  ∧ Screen.PrescriptionScreen st = Screen.EmptyCard Screen.default_disclaimer
  ∧ Screen.shows_recommendation (Screen.PrescriptionScreen st) = false.
Proof. intros d res st. split_and!; reflexivity. Qed.

(* --------------------------------------------------------------------- *)
(** ** What the schema enforces *)
(* --------------------------------------------------------------------- *)

Section SchemaFacts.
Import Schema.

Lemma not_null_Some {A : Type} (v : option A) : not_null v = true → ∃ x, v = Some x.
Proof. destruct v; [eauto | discriminate]. Qed.

Lemma check_Some {A : Type} (e : A → bool) (v : option A) x :
  check e v = true → v = Some x → e x = true.
Proof. by intros H ->. Qed.

Lemma intensity_in_enum_spec v :
  intensity_in_enum v = true ↔ v = "low"%string ∨ v = "moderate"%string ∨ v = "vigorous"%string.
Proof.
  unfold intensity_in_enum. rewrite bool_decide_eq_true.
  rewrite !elem_of_cons, elem_of_nil. tauto.
Qed.

Lemma all_or_nothing_fmap {X A B C D : Type} (f : X → A) (g : X → B) (h : X → C) (k : X → D)
    (x : option X) :
  all_or_nothing (f <$> x) (g <$> x) (h <$> x) (k <$> x) = true.
Proof. by destruct x. Qed.

End SchemaFacts.

(** C6 (as amended). Every [exercise_sessions] row that the schema accepts
    has a non-null integer [duration_minutes] and an [intensity] that is
    either null or one of low, moderate, vigorous. *)
Theorem exercise_sessions_row_invariant (users : gset string) (r : Schema.exercise_sessions) :
  Schema.exercise_sessions_accepts users r = true →
  (∃ d, Schema.duration_minutes r = Some d ∧ -2147483648 ≤ d ≤ 2147483647)
  ∧ (Schema.intensity r = None
     ∨ Schema.intensity r = Some "low"%string
     ∨ Schema.intensity r = Some "moderate"%string
     ∨ Schema.intensity r = Some "vigorous"%string).
Proof.
  unfold Schema.exercise_sessions_accepts. rewrite !andb_true_iff.
  intros [[[[[[[_ _] _] _] _] Hnn] Hint] Hen]. split.
  - apply not_null_Some in Hnn as [d Hd]. exists d. split; [done |].
    apply (check_Some _ _ d) in Hint; [| done].
    unfold Schema.is_integer in Hint. by apply bool_decide_eq_true in Hint.
  - destruct (Schema.intensity r) as [v |] eqn:Hv; [| by left]. right.
    simpl in Hen. apply intensity_in_enum_spec in Hen.
    destruct Hen as [-> | [-> | ->]]; tauto.
Qed.

Lemma exercise_sessions_row_invariant_witness :
  let r := {| Schema.es_id := Some "e1"%string; Schema.es_user_id := Some "u1"%string;
              Schema.es_created_at := Some 0; Schema.date := Some 20458;
              Schema.exercise_type := Some "running"%string;
              Schema.duration_minutes := Some 30;
              Schema.intensity := Some "vigorous"%string;
              Schema.avg_heart_rate := None; Schema.calories := None;
              Schema.source := Some "manual"%string; Schema.notes := None |} in
  Schema.exercise_sessions_accepts {[ "u1"%string ]} r = true
  ∧ ∃ d, Schema.duration_minutes r = Some d ∧ -2147483648 ≤ d ≤ 2147483647.
Proof.
  intros r.
  assert (Hacc : Schema.exercise_sessions_accepts {[ "u1"%string ]} r = true) by (vm_compute; reflexivity).
  split; [exact Hacc |].
  exact (proj1 (exercise_sessions_row_invariant {[ "u1"%string ]} r Hacc)).
Defined.

(** C6 does not hold for every accepted row: the schema accepts a session of
    zero minutes, and one with no intensity at all. *)
Lemma exercise_sessions_accepts_zero_duration_and_null_intensity :
  let r0 := {| Schema.es_id := Some "e1"%string; Schema.es_user_id := Some "u1"%string;
               Schema.es_created_at := Some 0; Schema.date := Some 20458;
               Schema.exercise_type := Some "running"%string;
               Schema.duration_minutes := Some 0;
               Schema.intensity := Some "low"%string;
               Schema.avg_heart_rate := None; Schema.calories := None;
               Schema.source := Some "manual"%string; Schema.notes := None |} in
  let r1 := {| Schema.es_id := Some "e2"%string; Schema.es_user_id := Some "u1"%string;
               Schema.es_created_at := Some 0; Schema.date := Some 20458;
               Schema.exercise_type := Some "running"%string;
               Schema.duration_minutes := Some 30;
               Schema.intensity := None;
               Schema.avg_heart_rate := None; Schema.calories := None;
               Schema.source := Some "manual"%string; Schema.notes := None |} in
  (Schema.exercise_sessions_accepts {[ "u1"%string ]} r0 = true
   ∧ ¬ (∃ d, Schema.duration_minutes r0 = Some d ∧ 0 < d))
  ∧ (Schema.exercise_sessions_accepts {[ "u1"%string ]} r1 = true
     ∧ ¬ (∃ v, Schema.intensity r1 = Some v ∧ Schema.intensity_in_enum v = true)).
Proof.
  intros r0 r1. split; split; try (vm_compute; reflexivity).
  - intros (d & [= <-] & Hd). lia.
  - intros (v & Hv & _). discriminate Hv.
Qed.

(** C7 (as amended). Every [mood_checkins] row that the schema accepts has
    [mood_score] present and in 1..10, and [ai_intensity], when set, in
    1..10; the schema does not tie the four classification columns
    together.  In the API's check-in response the classification is one
    nullable object, so there its four fields are set together or not at
    all. *)
Theorem mood_checkins_row_invariant (users : gset string) (r : Schema.mood_checkins)
    (resp : Hooks.CheckinResponse) :
  Schema.mood_checkins_accepts users r = true →
  (∃ m, Schema.mood_score r = Some m ∧ 1 ≤ m ≤ 10)
  ∧ (∀ i, Schema.ai_intensity r = Some i → 1 ≤ i ≤ 10)
  ∧ Schema.all_or_nothing (Hooks.label_of resp) (Hooks.intensity_of resp)
      (Hooks.themes_of resp) (Hooks.confidence_of resp) = true.
Proof.
  unfold Schema.mood_checkins_accepts. rewrite !andb_true_iff.
  intros [[[[[[[_ _] _] Hnn] _] Hrange] _] Hai]. split_and!.
  - apply not_null_Some in Hnn as [m Hm]. exists m. split; [done |].
    apply (check_Some _ _ m) in Hrange; [| done]. by apply bool_decide_eq_true in Hrange.
  - intros i Hi. apply (check_Some _ _ i) in Hai; [| done]. by apply bool_decide_eq_true in Hai.
  - apply all_or_nothing_fmap.
Qed.

Lemma mood_checkins_row_invariant_witness :
  let r := {| Schema.mc_id := Some "m1"%string; Schema.mc_user_id := Some "u1"%string;
              Schema.mc_created_at := Some 0; Schema.mood_score := Some 7;
              Schema.journal_text := None; Schema.manual_tags := Some ["calm"%string];
              Schema.ai_mood_label := None; Schema.ai_intensity := None;
              Schema.ai_themes := None; Schema.ai_confidence := None;
              Schema.ai_processed := Some false |} in
  let resp := {| Hooks.id := "m1"; Hooks.created_at := "2026-01-05T08:00:00Z";
                 Hooks.mood_score := 7; Hooks.journal_text_stored := false;
                 Hooks.ai_processed := false; Hooks.classification := None;
                 Hooks.manual_tags := Some ["calm"%string] |} in
  Schema.mood_checkins_accepts {[ "u1"%string ]} r = true
  ∧ ∃ m, Schema.mood_score r = Some m ∧ 1 ≤ m ≤ 10.
Proof.
  intros r resp.
  assert (Hacc : Schema.mood_checkins_accepts {[ "u1"%string ]} r = true) by (vm_compute; reflexivity).
  split; [exact Hacc |].
  exact (proj1 (mood_checkins_row_invariant {[ "u1"%string ]} r resp Hacc)).
Defined.

(** C7 does not hold for every accepted row: the schema accepts a check-in whose
    [ai_mood_label] is set while the other three classification columns are
    null. *)
Lemma mood_checkins_accepts_partial_classification :
  let r := {| Schema.mc_id := Some "m1"%string; Schema.mc_user_id := Some "u1"%string;
              Schema.mc_created_at := Some 0; Schema.mood_score := Some 7;
              Schema.journal_text := None; Schema.manual_tags := None;
              Schema.ai_mood_label := Some "calm"%string; Schema.ai_intensity := None;
              Schema.ai_themes := None; Schema.ai_confidence := None;
              Schema.ai_processed := Some true |} in
  Schema.mood_checkins_accepts {[ "u1"%string ]} r = true
  ∧ Schema.ai_all_or_nothing r = false.
Proof. intros r. split; vm_compute; reflexivity. Qed.

(* --------------------------------------------------------------------- *)
(** ** The engine: the correlation gate *)
(* --------------------------------------------------------------------- *)

Section Gate.
Import Engine.
Variable pearsonr : list Q → list Q → Q * Q.
Implicit Types (checkins : list MoodCheckin) (sessions : list ExerciseSession)
  (c : Correlation) (ty : string).

Lemma correlate_Some user now lag checkins sessions ty c :
  correlate pearsonr user now lag checkins sessions ty = Some c →
  c_exercise_type c = ty
  ∧ sample_size c = Z.of_nat (length (retained_pairs lag checkins sessions ty))
  ∧ MIN_SAMPLE_SIZE ≤ sample_size c.
Proof.
  unfold correlate.
  destruct (Z.ltb_spec (Z.of_nat (length (retained_pairs lag checkins sessions ty))) MIN_SAMPLE_SIZE)
    as [Hlt | Hge]; [discriminate |].
  intros [= <-]. simpl. done.
Qed.

Lemma correlate_below_gate user now lag checkins sessions ty :
  Z.of_nat (length (retained_pairs lag checkins sessions ty)) < MIN_SAMPLE_SIZE →
  correlate pearsonr user now lag checkins sessions ty = None.
Proof.
  intros Hlt. unfold correlate.
  by destruct (Z.ltb_spec (Z.of_nat (length (retained_pairs lag checkins sessions ty))) MIN_SAMPLE_SIZE);
    [| lia].
Qed.

Lemma compute_correlations_elem user now lag checkins sessions c :
  c ∈ compute_correlations pearsonr user now lag checkins sessions →
  c_exercise_type c ∈ exercise_types sessions
  ∧ correlate pearsonr user now lag checkins sessions (c_exercise_type c) = Some c.
Proof.
  unfold compute_correlations. rewrite list_elem_of_omap.
  intros (ty & Hty & Hc). destruct (correlate_Some _ _ _ _ _ _ _ Hc) as (<- & _). done.
Qed.

Lemma exercise_types_elem sessions ty :
  ty ∈ exercise_types sessions ↔ ∃ s, s ∈ sessions ∧ exercise_type s = ty.
Proof.
  unfold exercise_types. rewrite elem_of_remove_dups, list_elem_of_fmap. split.
  - intros (s & -> & Hs). eauto.
  - intros (s & Hs & <-). eauto.
Qed.

Lemma retained_pairs_le_sessions lag checkins sessions ty :
  (length (retained_pairs lag checkins sessions ty) ≤ length (sessions_of ty sessions))%nat.
Proof.
  unfold retained_pairs. generalize (sessions_of ty sessions). intros l.
  induction l as [| s l IH]; [done |].
  change (omap (pair_of lag checkins) (s :: l))
    with (match pair_of lag checkins s with
          | Some y => y :: omap (pair_of lag checkins) l
          | None => omap (pair_of lag checkins) l
          end).
  destruct (pair_of lag checkins s); simpl; lia.
Qed.

Lemma compute_correlations_nil user now lag checkins :
  compute_correlations pearsonr user now lag checkins [] = [].
Proof. reflexivity. Qed.

End Gate.

(** C1. For every history and every exercise type with fewer than 5
    retained (session, mood change) pairs, the Correlation Computer emits
    no Correlation row of that exercise type. *)
Theorem no_correlation_below_sample_gate (pearsonr : list Q → list Q → Q * Q)
    (user : string) (now lag : Z) (checkins : list Engine.MoodCheckin)
    (sessions : list Engine.ExerciseSession) (ty : string) :
  (length (Engine.retained_pairs lag checkins sessions ty) < 5)%nat →
  ∀ c, c ∈ Engine.compute_correlations pearsonr user now lag checkins sessions →
       Engine.c_exercise_type c ≠ ty.
Proof.
  intros Hlt c Hc Hty.
  apply compute_correlations_elem in Hc as [_ Hc]. rewrite Hty in Hc.
  rewrite correlate_below_gate in Hc; [discriminate |].
  unfold Engine.MIN_SAMPLE_SIZE. lia.
Qed.

Lemma no_correlation_below_sample_gate_witness :
  (length (Engine.retained_pairs 1 Samples.week_checkins Samples.yoga_sessions "yoga") < 5)%nat
  ∧ ∀ c, c ∈ Engine.compute_correlations (Samples.fixed_stats (-(3 # 4)) (1 # 100)) "u1" 0 1
               Samples.week_checkins Samples.yoga_sessions →
         Engine.c_exercise_type c ≠ "yoga"%string.
Proof.
  assert (Hlt : (length (Engine.retained_pairs 1 Samples.week_checkins Samples.yoga_sessions "yoga") < 5)%nat)
    by (vm_compute; lia).
  split; [exact Hlt |].
  exact (no_correlation_below_sample_gate (Samples.fixed_stats (-(3 # 4)) (1 # 100)) "u1" 0 1
           Samples.week_checkins Samples.yoga_sessions "yoga" Hlt).
Defined.

(** Scenario C of the specification: four yoga sessions with a positive
    trend give no row and a rule-based prescription. *)
Example scenario_four_yoga_sessions :
  Engine.retained_pairs 1 Samples.week_checkins Samples.yoga_sessions "yoga"
  = [(4, 7); (5, 6); (7, 8); (6, 7)]
  ∧ Engine.compute_correlations (Samples.fixed_stats (-(3 # 4)) (1 # 100)) "u1" 0 1
      Samples.week_checkins Samples.yoga_sessions = []
  ∧ Engine.source (Engine.prescribe (Samples.fixed_stats (-(3 # 4)) (1 # 100))
                     Samples.plain_narrative Samples.walk_default
                       Samples.low_confidence "u1" 0 1 Samples.example_table
                     Samples.week_checkins Samples.yoga_sessions) = Engine.rule_based.
Proof. split_and!; vm_compute; reflexivity. Qed.

(* --------------------------------------------------------------------- *)
(** ** The engine: the ranking *)
(* --------------------------------------------------------------------- *)

Section Ranking.
Import Engine.
Implicit Types (a b c s : Correlation) (l cs : list Correlation).



Lemma survivors_elem cs c : c ∈ survivors cs ↔ passes_gate c = true ∧ c ∈ cs.
Proof.
  unfold survivors. rewrite list_elem_of_filter. by rewrite Is_true_true.
Qed.

Lemma string_compare_refl (x : string) : OrdersEx.String_as_OT.compare x x = Eq.
Proof.
  destruct (OrdersEx.String_as_OT.compare_spec x x) as [_ | H | H]; [done | |];
    by apply (irreflexivity OrdersEx.String_as_OT.lt) in H.
Qed.

Lemma rank_compare_Lt a b : rank_compare a b = Lt ↔ outranks a b.
Proof.
  unfold rank_compare, outranks.
  destruct (Qcompare_spec (mood_change_avg b) (mood_change_avg a)) as [Hq | Hq | Hq].
  - destruct (Z.compare_spec (sample_size b) (sample_size a)) as [Hz | Hz | Hz].
    + destruct (OrdersEx.String_as_OT.compare_spec (c_exercise_type a) (c_exercise_type b))
        as [Hs | Hs | Hs].
      * split; [discriminate |]. rewrite Hs.
        intros [? | [_ [? | [_ Hlt]]]]; [lra | lia |].
        by apply (irreflexivity OrdersEx.String_as_OT.lt) in Hlt.
      * split; [| done]. intros _. right. split; [lra |]. right. done.
      * split; [discriminate |].
        intros [? | [_ [? | [_ Hlt]]]]; [lra | lia |].
        exfalso. apply (irreflexivity OrdersEx.String_as_OT.lt (c_exercise_type a)).
        by transitivity (c_exercise_type b).
    + split; [| done]. intros _. right. split; [lra |]. left. done.
    + split; [discriminate |]. intros [? | [_ [? | [? _]]]]; [lra | lia | lia].
  - split; [| done]. intros _. by left.
  - split; [discriminate |]. intros [? | [? _]]; lra.
Qed.

Lemma rank_compare_Eq a b : rank_compare a b = Eq ↔ same_rank a b.
Proof.
  unfold rank_compare, same_rank.
  destruct (Qcompare_spec (mood_change_avg b) (mood_change_avg a)) as [Hq | Hq | Hq].
  - destruct (Z.compare_spec (sample_size b) (sample_size a)) as [Hz | Hz | Hz].
    + destruct (OrdersEx.String_as_OT.compare_spec (c_exercise_type a) (c_exercise_type b))
        as [Hs | Hs | Hs].
      * split; [| done]. intros _. split_and!; [lra | done | done].
      * split; [discriminate |]. intros (_ & _ & He). rewrite He in Hs.
        by apply (irreflexivity OrdersEx.String_as_OT.lt) in Hs.
      * split; [discriminate |]. intros (_ & _ & He). rewrite He in Hs.
        by apply (irreflexivity OrdersEx.String_as_OT.lt) in Hs.
    + split; [discriminate |]. intros (_ & ? & _). lia.
    + split; [discriminate |]. intros (_ & ? & _). lia.
  - split; [discriminate |]. intros (? & _). lra.
  - split; [discriminate |]. intros (? & _). lra.
Qed.

Lemma rank_compare_antisym a b : rank_compare b a = CompOpp (rank_compare a b).
Proof.
  unfold rank_compare.
  rewrite <- (Qcompare_antisym (mood_change_avg b) (mood_change_avg a)).
  rewrite (Z.compare_antisym (sample_size b) (sample_size a)).
  destruct (mood_change_avg b ?= mood_change_avg a)%Q; simpl; try done.
  destruct (sample_size b ?= sample_size a); simpl; try done.
  destruct (OrdersEx.String_as_OT.compare_spec (c_exercise_type a) (c_exercise_type b))
    as [Hs | Hs | Hs]; simpl.
  - rewrite Hs. apply string_compare_refl.
  - destruct (OrdersEx.String_as_OT.compare_spec (c_exercise_type b) (c_exercise_type a))
      as [He | Hlt | Hgt]; [| | done].
    + rewrite He in Hs. by apply (irreflexivity OrdersEx.String_as_OT.lt) in Hs.
    + exfalso. apply (irreflexivity OrdersEx.String_as_OT.lt (c_exercise_type a)).
      by transitivity (c_exercise_type b).
  - destruct (OrdersEx.String_as_OT.compare_spec (c_exercise_type b) (c_exercise_type a))
      as [He | Hlt | Hgt]; [| done |].
    + rewrite He in Hs. by apply (irreflexivity OrdersEx.String_as_OT.lt) in Hs.
    + exfalso. apply (irreflexivity OrdersEx.String_as_OT.lt (c_exercise_type a)).
      by transitivity (c_exercise_type b).
Qed.

End Ranking.

Section Selection.
Import Engine.
Implicit Types (a b c s : Correlation) (l cs : list Correlation).

Lemma rank_compare_Gt a b : rank_compare a b = Gt ↔ outranks b a.
Proof.
  rewrite <- rank_compare_Lt, (rank_compare_antisym a b).
  destruct (rank_compare a b); simpl; split; congruence.
Qed.

Lemma ranks_first_spec a b : ranks_first a b = true ↔ outranks a b ∨ same_rank a b.
Proof.
  unfold ranks_first. rewrite <- rank_compare_Lt, <- rank_compare_Eq.
  destruct (rank_compare a b); split; try tauto; try congruence.
  intros [H | H]; discriminate H.
Qed.

Lemma ranks_first_total a b : ranks_first a b = false → ranks_first b a = true.
Proof.
  unfold ranks_first. rewrite (rank_compare_antisym a b).
  destruct (rank_compare a b); simpl; congruence.
Qed.

Lemma ranks_first_refl a : ranks_first a a = true.
Proof. apply ranks_first_spec. right. unfold same_rank. split_and!; [lra | done | done]. Qed.

Lemma ranks_first_trans a b c :
  ranks_first a b = true → ranks_first b c = true → ranks_first a c = true.
Proof.
  rewrite !ranks_first_spec. unfold outranks, same_rank.
  intros [[H1 | [H1 [H1' | [H1' H1'']]]] | (H1 & H1' & H1'')]
         [[H2 | [H2 [H2' | [H2' H2'']]]] | (H2 & H2' & H2'')];
    first
      [ left; left; lra
      | left; right; split; [lra |]; left; lia
      | left; right; split; [lra |]; right; split; [lia |];
        first [ by transitivity (c_exercise_type b) | congruence ]
      | right; split_and!; [lra | lia | congruence] ].
Qed.

Lemma insert_ranked_elem c l x : x ∈ insert_ranked c l ↔ x = c ∨ x ∈ l.
Proof.
  induction l as [| y l IH]; simpl.
  - rewrite list_elem_of_singleton, elem_of_nil. tauto.
  - destruct (ranks_first c y).
    + by rewrite elem_of_cons.
    + rewrite !elem_of_cons, IH. tauto.
Qed.

Lemma rank_elem l x : x ∈ rank l ↔ x ∈ l.
Proof.
  induction l as [| y l IH]; simpl; [done |].
  rewrite insert_ranked_elem, elem_of_cons, IH. tauto.
Qed.

Lemma head_insert_ranked c l :
  head (insert_ranked c l)
  = Some (match head l with
          | Some x => if ranks_first c x then c else x
          | None => c
          end).
Proof. destruct l as [| x l]; simpl; [done |]. by destruct (ranks_first c x). Qed.

(** The head of the ranking is a member that no member outranks. *)
Lemma head_rank_best l c :
  head (rank l) = Some c → c ∈ l ∧ ∀ s, s ∈ l → ranks_first c s = true.
Proof.
  revert c. induction l as [| a l IH]; intros c; simpl; [discriminate |].
  rewrite head_insert_ranked. intros [= Hc].
  destruct (head (rank l)) as [x |] eqn:Hx.
  - destruct (IH x eq_refl) as [Hxl Hbest].
    destruct (ranks_first a x) eqn:Hax; subst c.
    + split; [apply elem_of_cons; by left |].
      intros s [-> | Hs]%elem_of_cons; [apply ranks_first_refl |].
      apply (ranks_first_trans a x s); [done | by apply Hbest].
    + split; [apply elem_of_cons; by right |].
      intros s [-> | Hs]%elem_of_cons; [by apply ranks_first_total | by apply Hbest].
  - subst c. apply head_None in Hx.
    assert (l = []) as ->.
    { destruct l as [| y l']; [done |]. exfalso.
      assert (y ∈ rank (y :: l')) as Hy by (apply rank_elem, elem_of_cons; by left).
      rewrite Hx in Hy. by apply elem_of_nil in Hy. }
    split; [apply elem_of_cons; by left |].
    intros s [-> | Hs]%elem_of_cons; [apply ranks_first_refl | by apply elem_of_nil in Hs].
Qed.

Lemma top_ranked_is_Some cs : survivors cs ≠ [] → ∃ c, top_ranked cs = Some c.
Proof.
  intros Hne. unfold top_ranked.
  destruct (head (rank (survivors cs))) as [c |] eqn:Hh; [eauto |].
  apply head_None in Hh. destruct (survivors cs) as [| y l]; [done |]. exfalso.
  assert (y ∈ rank (y :: l)) as Hy by (apply rank_elem, elem_of_cons; by left).
  rewrite Hh in Hy. by apply elem_of_nil in Hy.
Qed.

Lemma top_ranked_best cs c :
  top_ranked cs = Some c →
  c ∈ survivors cs ∧ ∀ s, s ∈ survivors cs → outranks c s ∨ same_rank c s.
Proof.
  intros Hc. apply head_rank_best in Hc as [Hin Hbest]. split; [done |].
  intros s Hs. by apply ranks_first_spec, Hbest.
Qed.

Lemma top_ranked_None cs : top_ranked cs = None → survivors cs = [].
Proof.
  intros Hn. destruct (survivors cs) as [| y l] eqn:Hs; [done |].
  destruct (top_ranked_is_Some cs) as [c Hc]; [by rewrite Hs | congruence].
Qed.

Variable narrative : Correlation → string.
Variable global_default : string → Z * Intensity.
Variable rule_based_confidence : Q.

Lemma select_prescription_correlation user now table cs latest sessions c :
  top_ranked cs = Some c →
  rx_exercise_type (select_prescription narrative global_default
        rule_based_confidence user now table cs latest sessions)
  = c_exercise_type c
  ∧ source (select_prescription narrative global_default
        rule_based_confidence user now table cs latest sessions)
    = correlation
  ∧ confidence (select_prescription narrative global_default
        rule_based_confidence user now table cs latest sessions)
    = correlation_confidence c.
Proof. intros Hc. unfold select_prescription. by rewrite Hc. Qed.

Lemma select_prescription_rule_based user now table cs latest sessions :
  top_ranked cs = None →
  source (select_prescription narrative global_default
        rule_based_confidence user now table cs latest sessions)
  = rule_based
  ∧ confidence (select_prescription narrative global_default
        rule_based_confidence user now table cs latest sessions)
    = rule_based_confidence
  ∧ rx_exercise_type (select_prescription narrative global_default
        rule_based_confidence user now table cs latest sessions)
    = rec_exercise_type (first_match table latest).
Proof. intros Hc. unfold select_prescription. by rewrite Hc. Qed.

Lemma select_prescription_source_correlation user now table cs latest sessions :
  source (select_prescription narrative global_default
        rule_based_confidence user now table cs latest sessions)
  = correlation →
  ∃ c, top_ranked cs = Some c
       ∧ rx_exercise_type (select_prescription narrative global_default
             rule_based_confidence user now table cs latest sessions)
         = c_exercise_type c.
Proof.
  unfold select_prescription. destruct (top_ranked cs) as [c |]; [eauto | discriminate].
Qed.

End Selection.

Section RankingOrder.
Import Engine.
Implicit Types (a b c s : Correlation).

Lemma outranks_asym a b : outranks a b → ¬ outranks b a ∧ ¬ same_rank b a.
Proof.
  rewrite <- (rank_compare_Gt b a), <- (rank_compare_Lt b a), <- (rank_compare_Eq b a).
  intros ->. split; discriminate.
Qed.

Lemma same_rank_type a b : same_rank a b → c_exercise_type a = c_exercise_type b.
Proof. by intros (_ & _ & ?). Qed.

Lemma same_rank_sym a b : same_rank a b → same_rank b a.
Proof. intros (? & ? & ?). split_and!; [lra | done | done]. Qed.

End RankingOrder.

(** C5. Whenever some correlation survives the filter, the selector returns
    a correlation-based prescription for a survivor that is the maximum of
    the survivors under the order: mood_change_avg descending, then
    sample_size descending, then exercise_type ascending.  It outranks every
    survivor of another exercise type, and any other maximal survivor agrees
    with it on all three keys (so the selected type is unique).  In
    particular, of two survivors tied at mood_change_avg 2.0 with sample
    sizes 8 and 12, the one with 12 samples is selected. *)
Theorem selector_picks_top_ranked (narrative : Engine.Correlation → string)
    (global_default : string → Z * Engine.Intensity) (rule_based_confidence : Q)
    (user : string) (now : Z)
    (table : Engine.RuleTable) (cs : list Engine.Correlation)
    (latest : option Engine.MoodCheckin) (sessions : list Engine.ExerciseSession) :
  (Engine.survivors cs ≠ [] →
   ∃ c, c ∈ Engine.survivors cs
        ∧ Engine.source (Engine.select_prescription narrative global_default
              rule_based_confidence user now table
                           cs latest sessions) = Engine.correlation
        ∧ Engine.rx_exercise_type (Engine.select_prescription narrative global_default
              rule_based_confidence user now
                                     table cs latest sessions) = Engine.c_exercise_type c
        ∧ (∀ s, s ∈ Engine.survivors cs → Engine.outranks c s ∨ Engine.same_rank c s)
        ∧ (∀ s, s ∈ Engine.survivors cs →
                Engine.c_exercise_type s ≠ Engine.c_exercise_type c → Engine.outranks c s)
        ∧ (∀ s, s ∈ Engine.survivors cs →
                (∀ t, t ∈ Engine.survivors cs → Engine.outranks s t ∨ Engine.same_rank s t) →
                Engine.same_rank c s))
  ∧ (∀ a b,
       Engine.passes_gate a = true → Engine.passes_gate b = true →
       (Engine.mood_change_avg a == 2)%Q → (Engine.mood_change_avg b == 2)%Q →
       Engine.sample_size a = 8 → Engine.sample_size b = 12 →
       Engine.rx_exercise_type (Engine.select_prescription narrative global_default
             rule_based_confidence user now
                                  table [a; b] latest sessions) = Engine.c_exercise_type b
       ∧ Engine.rx_exercise_type (Engine.select_prescription narrative global_default
             rule_based_confidence user now
                                    table [b; a] latest sessions) = Engine.c_exercise_type b).
Proof.
  assert (Hgen : ∀ cs', Engine.survivors cs' ≠ [] →
    ∃ c, c ∈ Engine.survivors cs'
         ∧ Engine.source (Engine.select_prescription narrative global_default
               rule_based_confidence user now table
                            cs' latest sessions) = Engine.correlation
         ∧ Engine.rx_exercise_type (Engine.select_prescription narrative global_default
               rule_based_confidence user now
                                      table cs' latest sessions) = Engine.c_exercise_type c
         ∧ (∀ s, s ∈ Engine.survivors cs' → Engine.outranks c s ∨ Engine.same_rank c s)).
  { intros cs' Hne. destruct (top_ranked_is_Some cs' Hne) as [c Hc]. exists c.
    destruct (top_ranked_best cs' c Hc) as [Hin Hbest].
    destruct (select_prescription_correlation narrative global_default
          rule_based_confidence user now table cs'
                latest sessions c Hc) as (Hty & Hsrc & _).
    done. }
  split.
  - intros Hne. destruct (Hgen cs Hne) as (c & Hin & Hsrc & Hty & Hbest).
    exists c. split_and!; try done.
    + intros s Hs Hdiff. destruct (Hbest s Hs) as [Ho | Hsame]; [done |].
      apply same_rank_type in Hsame. congruence.
    + intros s Hs Hmax. destruct (Hbest s Hs) as [Ho | Hsame]; [| done].
      destruct (outranks_asym c s Ho) as [Hno Hns].
      destruct (Hmax c Hin) as [Ho' | Hsame']; contradiction.
  - intros a b Ha Hb Hqa Hqb Hna Hnb.
    assert (Hnot : ¬ (Engine.outranks a b ∨ Engine.same_rank a b)).
    { unfold Engine.outranks, Engine.same_rank.
      intros [[? | [_ [? | [? _]]]] | (_ & ? & _)]; [lra | lia | lia | lia]. }
    assert (Hpick : ∀ cs', (∀ s, s ∈ Engine.survivors cs' ↔ s = a ∨ s = b) →
              Engine.rx_exercise_type (Engine.select_prescription narrative global_default
                    rule_based_confidence user
                                         now table cs' latest sessions)
              = Engine.c_exercise_type b).
    { intros cs' Hsurv.
      assert (Hne : Engine.survivors cs' ≠ []).
      { intros Hnil. assert (a ∈ Engine.survivors cs') as Hin by (apply Hsurv; by left).
        rewrite Hnil in Hin. by apply elem_of_nil in Hin. }
      destruct (Hgen cs' Hne) as (c & Hin & _ & Hty & Hbest). rewrite Hty.
      apply Hsurv in Hin as [-> | ->]; [| done].
      exfalso. apply Hnot, Hbest, Hsurv. by right. }
    split; apply Hpick; intros s; rewrite survivors_elem, !elem_of_cons, elem_of_nil.
    + split; [tauto |]. intros [-> | ->]; tauto.
    + split; [tauto |]. intros [-> | ->]; tauto.
Qed.

Lemma selector_picks_top_ranked_witness :
  Engine.passes_gate Samples.cycling_row = true
  ∧ Engine.passes_gate Samples.swimming_row = true
  ∧ Engine.rx_exercise_type
      (Engine.select_prescription Samples.plain_narrative Samples.walk_default
         Samples.low_confidence "u1" 0 Samples.example_table
         [Samples.cycling_row; Samples.swimming_row] None [])
    = "swimming"%string.
Proof.
  split; [reflexivity |]. split; [reflexivity |].
  exact (proj1 (proj2 (selector_picks_top_ranked Samples.plain_narrative Samples.walk_default
                         Samples.low_confidence "u1" 0 Samples.example_table [] None [])
                  Samples.cycling_row Samples.swimming_row
                  eq_refl eq_refl eq_refl eq_refl eq_refl eq_refl)).
Defined.

(* --------------------------------------------------------------------- *)
(** ** The engine: evidence behind a correlation-based prescription *)
(* --------------------------------------------------------------------- *)

Section Evidence.
Import Engine.
Variable narrative : Correlation → string.
Variable global_default : string → Z * Intensity.
Variable rule_based_confidence : Q.

(** The selector ranks the rows it is given: a correlation-based
    prescription names the type of one of them. *)
Lemma select_prescription_names_given_row user now table cs latest sessions :
  source (select_prescription narrative global_default rule_based_confidence user now table
            cs latest sessions) = correlation →
  ∃ c, c ∈ cs ∧ passes_gate c = true
       ∧ rx_exercise_type (select_prescription narrative global_default rule_based_confidence
                             user now table cs latest sessions) = c_exercise_type c.
Proof.
  intros Hsrc. apply select_prescription_source_correlation in Hsrc as (c & Hc & Hty).
  apply top_ranked_best in Hc as [Hin _]. apply survivors_elem in Hin as [Hgate Hin]. eauto.
Qed.

Lemma first_match_cases table latest :
  (∃ c r, latest = Some c ∧ r ∈ rules table
          ∧ applies r (mood_score c) (tags_of c) = true
          ∧ first_match table latest = recommends r)
  ∨ ((∀ c r, latest = Some c → r ∈ rules table →
             applies r (mood_score c) (tags_of c) = false)
     ∧ first_match table latest = catch_all table).
Proof.
  unfold first_match. destruct latest as [c |]; [| right; split; [intros c r [=] | done]].
  destruct (List.find _ (rules table)) as [r |] eqn:Hfind.
  - left. apply find_some in Hfind as [Hin Happ]. exists c, r.
    split_and!; [done | by apply list_elem_of_In | done | done].
  - right. split; [| done]. intros c' r [= <-] Hin%list_elem_of_In.
    by apply (find_none _ _ Hfind r).
Qed.

End Evidence.

(** C4 (as amended). Whenever every correlation the selector is given is for
    an exercise type that occurs in the user's session history, as is the
    case for the rows the Correlation Computer computes from that history,
    a prescription with source correlation names the type of at least one
    session of the history; with no correlations and no sessions the
    prescription is rule-based and recommends a type with zero history. *)
Theorem correlation_prescription_type_in_history (pearsonr : list Q → list Q → Q * Q)
    (narrative : Engine.Correlation → string) (global_default : string → Z * Engine.Intensity)
    (rule_based_confidence : Q) (user : string) (now lag : Z) (table : Engine.RuleTable)
    (cs : list Engine.Correlation) (latest : option Engine.MoodCheckin)
    (checkins : list Engine.MoodCheckin) (sessions : list Engine.ExerciseSession) :
  ((∀ c, c ∈ cs → ∃ s, s ∈ sessions ∧ Engine.exercise_type s = Engine.c_exercise_type c) →
   Engine.source (Engine.select_prescription narrative global_default rule_based_confidence
                    user now table cs latest sessions) = Engine.correlation →
   ∃ s, s ∈ sessions
        ∧ Engine.exercise_type s
          = Engine.rx_exercise_type
              (Engine.select_prescription narrative global_default rule_based_confidence
                 user now table cs latest sessions))
  ∧ (∀ c, c ∈ Engine.compute_correlations pearsonr user now lag checkins sessions →
       ∃ s, s ∈ sessions ∧ Engine.exercise_type s = Engine.c_exercise_type c)
  ∧ (Engine.source (Engine.prescribe pearsonr narrative global_default rule_based_confidence
                      user now lag table checkins sessions) = Engine.correlation →
     ∃ s, s ∈ sessions
          ∧ Engine.exercise_type s
            = Engine.rx_exercise_type
                (Engine.prescribe pearsonr narrative global_default rule_based_confidence
                   user now lag table checkins sessions))
  ∧ (Engine.source (Engine.select_prescription narrative global_default rule_based_confidence
                      user now table [] latest []) = Engine.rule_based
     ∧ Engine.rx_exercise_type
         (Engine.select_prescription narrative global_default rule_based_confidence
            user now table [] latest [])
       = Engine.rec_exercise_type (Engine.first_match table latest)).
Proof.
  assert (Hfresh : ∀ c, c ∈ Engine.compute_correlations pearsonr user now lag checkins sessions →
            ∃ s, s ∈ sessions ∧ Engine.exercise_type s = Engine.c_exercise_type c).
  { intros c Hc. apply compute_correlations_elem in Hc as [Hin _].
    by apply exercise_types_elem in Hin. }
  assert (Hsel : ∀ cs' latest',
            (∀ c, c ∈ cs' → ∃ s, s ∈ sessions ∧ Engine.exercise_type s = Engine.c_exercise_type c) →
            Engine.source (Engine.select_prescription narrative global_default
                             rule_based_confidence user now table cs' latest' sessions)
            = Engine.correlation →
            ∃ s, s ∈ sessions
                 ∧ Engine.exercise_type s
                   = Engine.rx_exercise_type
                       (Engine.select_prescription narrative global_default
                          rule_based_confidence user now table cs' latest' sessions)).
  { intros cs' latest' Hcs Hsrc.
    apply select_prescription_names_given_row in Hsrc as (c & Hin & _ & Hty).
    rewrite Hty. by apply Hcs. }
  split_and!.
  - apply Hsel.
  - exact Hfresh.
  - unfold Engine.prescribe. by apply Hsel.
  - reflexivity.
  - reflexivity.
Qed.

Lemma correlation_prescription_type_in_history_witness :
  Engine.source (Engine.prescribe (Samples.fixed_stats (-(3 # 4)) (1 # 100))
                   Samples.plain_narrative Samples.walk_default Samples.low_confidence "u1" 0 1
                   Samples.example_table Samples.week_checkins Samples.running_sessions)
  = Engine.correlation
  ∧ ∃ s, s ∈ Samples.running_sessions
         ∧ Engine.exercise_type s
           = Engine.rx_exercise_type
               (Engine.prescribe (Samples.fixed_stats (-(3 # 4)) (1 # 100))
                  Samples.plain_narrative Samples.walk_default Samples.low_confidence "u1" 0 1
                  Samples.example_table Samples.week_checkins Samples.running_sessions).
Proof.
  assert (Hsrc : Engine.source (Engine.prescribe (Samples.fixed_stats (-(3 # 4)) (1 # 100))
                   Samples.plain_narrative Samples.walk_default Samples.low_confidence "u1" 0 1
                   Samples.example_table Samples.week_checkins Samples.running_sessions)
                 = Engine.correlation)
    by (vm_compute; reflexivity).
  split; [exact Hsrc |].
  exact (proj1 (proj2 (proj2
           (correlation_prescription_type_in_history (Samples.fixed_stats (-(3 # 4)) (1 # 100))
              Samples.plain_narrative Samples.walk_default Samples.low_confidence "u1" 0 1
              Samples.example_table [] None Samples.week_checkins Samples.running_sessions)))
           Hsrc).
Defined.

(** C4 does not hold for every input of the selector: given a persisted
    correlation for cycling and a session history that holds only yoga
    (the cycling sessions having been deleted since), the selector returns
    a correlation-based prescription for cycling, a type that occurs in no
    session of the history. *)
Lemma persisted_correlation_outlives_sessions :
  Engine.passes_gate Samples.cycling_row = true
  ∧ Engine.source (Engine.select_prescription Samples.plain_narrative Samples.walk_default
                     Samples.low_confidence "u1" 0 Samples.example_table
                     [Samples.cycling_row] None Samples.yoga_sessions) = Engine.correlation
  ∧ Engine.rx_exercise_type
      (Engine.select_prescription Samples.plain_narrative Samples.walk_default
         Samples.low_confidence "u1" 0 Samples.example_table
         [Samples.cycling_row] None Samples.yoga_sessions) = "cycling"%string
  ∧ ¬ (∃ s, s ∈ Samples.yoga_sessions ∧ Engine.exercise_type s = "cycling"%string).
Proof.
  split_and!; [reflexivity | reflexivity | reflexivity |].
  intros (s & Hs & Hty). unfold Samples.yoga_sessions in Hs.
  rewrite !elem_of_cons, elem_of_nil in Hs.
  destruct Hs as [-> | [-> | [-> | [-> | []]]]]; discriminate Hty.
Qed.

(* --------------------------------------------------------------------- *)
(** ** The engine: the selector always prescribes *)
(* --------------------------------------------------------------------- *)

(** The two cases of the selector. *)
Lemma select_prescription_source_cases (narrative : Engine.Correlation → string)
    (global_default : string → Z * Engine.Intensity) (rule_based_confidence : Q)
    (user : string) (now : Z)
    (table : Engine.RuleTable) (cs : list Engine.Correlation)
    (latest : option Engine.MoodCheckin) (sessions : list Engine.ExerciseSession) :
  (Engine.survivors cs ≠ []
   ∧ Engine.source (Engine.select_prescription narrative global_default rule_based_confidence
                      user now table cs latest sessions) = Engine.correlation)
  ∨ (Engine.survivors cs = []
     ∧ Engine.source (Engine.select_prescription narrative global_default rule_based_confidence
                        user now table cs latest sessions) = Engine.rule_based
     ∧ Engine.confidence (Engine.select_prescription narrative global_default
                            rule_based_confidence user now table cs latest sessions)
       = rule_based_confidence
     ∧ Engine.rx_exercise_type (Engine.select_prescription narrative global_default
                                  rule_based_confidence user now table cs latest sessions)
       = Engine.rec_exercise_type (Engine.first_match table latest)).
Proof.
  destruct (Engine.top_ranked cs) as [c |] eqn:Hc.
  - left. destruct (top_ranked_best cs c Hc) as [Hin _].
    destruct (select_prescription_correlation narrative global_default rule_based_confidence
                user now table cs latest sessions c Hc) as (_ & Hsrc & _).
    split; [| done]. intros Hnil. rewrite Hnil in Hin. by apply elem_of_nil in Hin.
  - right. split; [by apply top_ranked_None |].
    destruct (select_prescription_rule_based narrative global_default rule_based_confidence
                user now table cs latest sessions Hc) as (Hsrc & Hconf & Hty). done.
Qed.

(** C2. For every input the Prescription Selector produces a prescription,
    of exactly one of the two sources: a correlation-based one, for a row
    that survives the filter, when some row survives, and otherwise the
    rule-based one, which is the recommendation of a rule of the table that
    applies to the latest check-in or, when none applies or there is no
    check-in, the catch-all.  With no check-ins and no sessions the
    prescription is the catch-all, rule-based. *)
Theorem selector_always_prescribes (pearsonr : list Q → list Q → Q * Q)
    (narrative : Engine.Correlation → string) (global_default : string → Z * Engine.Intensity)
    (rule_based_confidence : Q) (user : string) (now lag : Z) (table : Engine.RuleTable)
    (cs : list Engine.Correlation) (latest : option Engine.MoodCheckin)
    (sessions : list Engine.ExerciseSession) :
  ((Engine.survivors cs ≠ []
    ∧ Engine.source (Engine.select_prescription narrative global_default rule_based_confidence
                       user now table cs latest sessions) = Engine.correlation
    ∧ ∃ c, c ∈ Engine.survivors cs
           ∧ Engine.rx_exercise_type
               (Engine.select_prescription narrative global_default rule_based_confidence
                  user now table cs latest sessions) = Engine.c_exercise_type c)
   ∨ (Engine.survivors cs = []
      ∧ Engine.source (Engine.select_prescription narrative global_default rule_based_confidence
                         user now table cs latest sessions) = Engine.rule_based
      ∧ Engine.rx_exercise_type
          (Engine.select_prescription narrative global_default rule_based_confidence
             user now table cs latest sessions)
        = Engine.rec_exercise_type (Engine.first_match table latest)))
  ∧ ((∃ c r, latest = Some c ∧ r ∈ Engine.rules table
             ∧ Engine.applies r (Engine.mood_score c) (Engine.tags_of c) = true
             ∧ Engine.first_match table latest = Engine.recommends r)
     ∨ ((∀ c r, latest = Some c → r ∈ Engine.rules table →
                Engine.applies r (Engine.mood_score c) (Engine.tags_of c) = false)
        ∧ Engine.first_match table latest = Engine.catch_all table))
  ∧ (Engine.compute_correlations pearsonr user now lag [] [] = []
     ∧ Engine.source (Engine.prescribe pearsonr narrative global_default rule_based_confidence
                        user now lag table [] []) = Engine.rule_based
     ∧ Engine.rx_exercise_type
         (Engine.prescribe pearsonr narrative global_default rule_based_confidence
            user now lag table [] [])
       = Engine.rec_exercise_type (Engine.catch_all table)
     ∧ Engine.suggested_duration_minutes
         (Engine.prescribe pearsonr narrative global_default rule_based_confidence
            user now lag table [] [])
       = Engine.rec_duration_minutes (Engine.catch_all table)
     ∧ Engine.suggested_intensity
         (Engine.prescribe pearsonr narrative global_default rule_based_confidence
            user now lag table [] [])
       = Engine.rec_intensity (Engine.catch_all table)).
Proof.
  split_and!; try reflexivity.
  - destruct (Engine.top_ranked cs) as [c |] eqn:Hc.
    + left. destruct (top_ranked_best cs c Hc) as [Hin _].
      destruct (select_prescription_correlation narrative global_default rule_based_confidence
                  user now table cs latest sessions c Hc) as (Hty & Hsrc & _).
      split_and!; [| done | eauto].
      intros Hnil. rewrite Hnil in Hin. by apply elem_of_nil in Hin.
    + right. split; [by apply top_ranked_None |].
      destruct (select_prescription_rule_based narrative global_default rule_based_confidence
                  user now table cs latest sessions Hc) as (Hsrc & _ & Hty). done.
  - apply first_match_cases.
Qed.

Lemma selector_always_prescribes_witness :
  let latest := Samples.checkin_at 6 3 ["low_energy"%string] in
  Engine.rx_exercise_type
    (Engine.select_prescription Samples.plain_narrative Samples.walk_default
       Samples.low_confidence "u1" 0 Samples.example_table [] (Some latest) [])
  = "walking"%string
  ∧ Engine.suggested_duration_minutes
      (Engine.select_prescription Samples.plain_narrative Samples.walk_default
         Samples.low_confidence "u1" 0 Samples.example_table [] (Some latest) [])
    = 15
  ∧ Engine.rx_exercise_type
      (Engine.prescribe (Samples.fixed_stats (-(3 # 4)) (1 # 100)) Samples.plain_narrative
         Samples.walk_default Samples.low_confidence "u1" 0 1 Samples.example_table [] [])
    = "walking"%string.
Proof.
  intros latest. split; [reflexivity |]. split; [reflexivity |].
  exact (proj1 (proj2 (proj2 (proj2 (proj2
           (selector_always_prescribes (Samples.fixed_stats (-(3 # 4)) (1 # 100))
              Samples.plain_narrative Samples.walk_default Samples.low_confidence "u1" 0 1
              Samples.example_table [] (Some latest) [])))))).
Defined.

(* --------------------------------------------------------------------- *)
(** ** The engine: confidence *)
(* --------------------------------------------------------------------- *)

Section Confidence.
Import Engine.





End Confidence.



(** The bound is the exact one: a constant above the gate minimum, such as
    the 0.4 that the specification offers as an example, is not below the
    confidence of every correlation that passes the gate. *)
Lemma constant_above_gate_minimum_is_overtaken :
  Engine.passes_gate Samples.gate_row = true
  ∧ (Engine.GATE_MINIMUM_CONFIDENCE < 4 # 10)%Q
  ∧ (Engine.correlation_confidence Samples.gate_row < 4 # 10)%Q.
Proof. split_and!; reflexivity. Qed.

(* --------------------------------------------------------------------- *)
(** ** titleCase and the share message *)
(* --------------------------------------------------------------------- *)

Section TitleCase.
Import Text.

Ltac each_ascii c := destruct c as [[] [] [] [] [] [] [] []]; vm_compute; reflexivity.

Lemma is_word_char_to_upper c : is_word_char (to_upper c) = is_word_char c.
Proof. each_ascii c. Qed.

Lemma to_upper_involutive c : to_upper (to_upper c) = to_upper c.
Proof. each_ascii c. Qed.

Lemma to_upper_underscore c : Ascii.eqb (to_upper c) underscore = Ascii.eqb c underscore.
Proof. each_ascii c. Qed.

Lemma replaced_not_underscore c :
  Ascii.eqb (if Ascii.eqb c underscore then space else c) underscore = false.
Proof. each_ascii c. Qed.

Lemma replace_underscores_length s : String.length (replace_underscores s) = String.length s.
Proof. induction s as [| c s IH]; simpl; [done | by rewrite IH]. Qed.

Lemma capitalize_words_length p s : String.length (capitalize_words p s) = String.length s.
Proof. revert p. induction s as [| c s IH]; intros p; simpl; [done | by rewrite IH]. Qed.

Lemma replace_underscores_clean s :
  string_exists (λ c, Ascii.eqb c underscore) (replace_underscores s) = false.
Proof.
  induction s as [| c s IH]; simpl; [done |].
  by rewrite replaced_not_underscore, IH.
Qed.

Lemma capitalize_words_clean p s :
  string_exists (λ c, Ascii.eqb c underscore) (capitalize_words p s)
  = string_exists (λ c, Ascii.eqb c underscore) s.
Proof.
  revert p. induction s as [| c s IH]; intros p; simpl; [done |].
  rewrite IH. f_equal.
  destruct (is_word_char c && negb p); [apply to_upper_underscore | done].
Qed.

Lemma replace_underscores_id s :
  string_exists (λ c, Ascii.eqb c underscore) s = false → replace_underscores s = s.
Proof.
  induction s as [| c s IH]; simpl; [done |].
  intros [Hc Hs]%orb_false_iff. by rewrite Hc, IH.
Qed.

Lemma capitalize_words_idempotent p s :
  capitalize_words p (capitalize_words p s) = capitalize_words p s.
Proof.
  revert p. induction s as [| c s IH]; intros p; simpl; [done |].
  destruct (is_word_char c && negb p) eqn:Hc.
  - rewrite is_word_char_to_upper, Hc, to_upper_involutive, IH. done.
  - rewrite Hc, IH. done.
Qed.

Lemma titleCase_clean s :
  string_exists (λ c, Ascii.eqb c underscore) (titleCase s) = false.
Proof. unfold titleCase. by rewrite capitalize_words_clean, replace_underscores_clean. Qed.

End TitleCase.

(** X1. [titleCase] keeps the length of its argument and its result holds no
    underscore. *)
Theorem titleCase_length_and_no_underscore (str : string) :
  String.length (Text.titleCase str) = String.length str
  ∧ Text.string_exists (λ c, Ascii.eqb c Text.underscore) (Text.titleCase str) = false.
Proof.
  split; [| apply titleCase_clean].
  unfold Text.titleCase. by rewrite capitalize_words_length, replace_underscores_length.
Qed.

(** X2. [titleCase] is idempotent: a title-cased label is left as it is. *)
Theorem titleCase_idempotent (str : string) :
  Text.titleCase (Text.titleCase str) = Text.titleCase str.
Proof.
  unfold Text.titleCase at 1.
  rewrite (replace_underscores_id _ (titleCase_clean str)).
  unfold Text.titleCase. apply capitalize_words_idempotent.
Qed.

(** X3. Whenever the screen shows the recommendation card, and with it the
    share button, [handleShare] shares the message built from the very
    prescription on the card; without a prescription in the response it
    shares nothing. *)
Theorem handleShare_shares_displayed_prescription
    (st : Hooks.HookState Hooks.PrescriptionResponse) :
  (∀ p disc, Screen.PrescriptionScreen st = Screen.RecommendationCard p disc →
     Text.handleShare (Hooks.result st) = Some (Text.share_message p))
  ∧ (Text.handleShare (Hooks.result st) = None
     ↔ ∀ d, Hooks.result st = Some d → Hooks.prescription d = None).
Proof.
  split.
  - intros p disc Hv.
    apply screen_recommendation_inv in Hv as (_ & d & Hr & _ & Hp & _).
    unfold Text.handleShare. by rewrite Hr, Hp.
  - unfold Text.handleShare. destruct (Hooks.result st) as [d |]; [| split; [intros _ d [=] | done]].
    destruct (Hooks.prescription d) as [p |] eqn:Hp.
    + split; [discriminate |]. intros H. specialize (H d eq_refl). congruence.
    + split; [intros _ d' [= <-]; done | done].
Qed.

Lemma handleShare_shares_displayed_prescription_witness :
  let p := {| Hooks.p_id := "p1"; Hooks.p_created_at := "2026-01-05T08:00:00Z";
              Hooks.exercise_type := "brisk_walking"; Hooks.suggested_duration_minutes := 20;
              Hooks.suggested_intensity := "moderate"; Hooks.reasoning := "A short walk.";
              Hooks.p_confidence := 4 # 10; Hooks.source := "rule_based" |} in
  let d := {| Hooks.prescription := Some p; Hooks.has_data := true;
              Hooks.disclaimer := "MindRep is a wellness tool, not a medical device." |} in
  let st := {| Hooks.status := Hooks.success; Hooks.errorMessage := None;
               Hooks.result := Some d |} in
  Text.titleCase "brisk_walking" = "Brisk Walking"%string
  ∧ Text.handleShare (Hooks.result st) = Some (Text.share_message p).
Proof.
  intros p d st. split; [reflexivity |].
  exact (proj1 (handleShare_shares_displayed_prescription st) p _ eq_refl).
Defined.

(* --------------------------------------------------------------------- *)
(** ** The check-in form *)
(* --------------------------------------------------------------------- *)

Section Trim.
Import CheckInForm.
Implicit Types (s t : JsString) (c : N).

Lemma trimStart_split s :
  ∃ pre, s = pre ++ trimStart s ∧ Forall (λ c, is_trim_char c = true) pre.
Proof.
  induction s as [| c s (pre & Hs & Hpre)]; simpl.
  - by exists [].
  - destruct (is_trim_char c) eqn:Hc.
    + exists (c :: pre). split; [simpl; congruence | by constructor].
    + by exists [].
Qed.

Lemma trimStart_head s c : head (trimStart s) = Some c → is_trim_char c = false.
Proof.
  induction s as [| x s IH]; simpl; [discriminate |].
  destruct (is_trim_char x) eqn:Hx; [done |]. by intros [= <-].
Qed.

Lemma trimStart_fixed s :
  (∀ c, head s = Some c → is_trim_char c = false) → trimStart s = s.
Proof.
  destruct s as [| x s]; simpl; [done |]. intros H. by rewrite (H x eq_refl).
Qed.

Lemma trimStart_nil s : trimStart s = [] ↔ Forall (λ c, is_trim_char c = true) s.
Proof.
  induction s as [| x s IH]; simpl; [done |].
  destruct (is_trim_char x) eqn:Hx.
  - rewrite IH, Forall_cons. tauto.
  - split; [discriminate |]. intros [Hx' _]%Forall_cons. congruence.
Qed.

Lemma trimEnd_split s :
  ∃ post, s = trimEnd s ++ post ∧ Forall (λ c, is_trim_char c = true) post.
Proof.
  destruct (trimStart_split (reverse s)) as (pre & Hs & Hpre).
  exists (reverse pre). split.
  - unfold trimEnd. rewrite <- reverse_app, <- Hs. by rewrite reverse_involutive.
  - by apply Forall_reverse.
Qed.

Lemma trimEnd_last s c : last (trimEnd s) = Some c → is_trim_char c = false.
Proof. unfold trimEnd. rewrite last_reverse. apply trimStart_head. Qed.

Lemma trimEnd_head s c :
  head (trimEnd s) = Some c → head s = Some c.
Proof.
  destruct (trimEnd_split s) as (post & Hs & _). intros Hh.
  rewrite Hs. destruct (trimEnd s); [discriminate | done].
Qed.

Lemma trimEnd_fixed s :
  (∀ c, last s = Some c → is_trim_char c = false) → trimEnd s = s.
Proof.
  intros H. unfold trimEnd. rewrite trimStart_fixed; [apply reverse_involutive |].
  intros c. rewrite head_reverse. apply H.
Qed.

Lemma trim_split s :
  ∃ pre post, s = pre ++ trim s ++ post
    ∧ Forall (λ c, is_trim_char c = true) pre ∧ Forall (λ c, is_trim_char c = true) post.
Proof.
  destruct (trimStart_split s) as (pre & Hs & Hpre).
  destruct (trimEnd_split (trimStart s)) as (post & Ht & Hpost).
  exists pre, post. split; [| done]. unfold trim. by rewrite <- Ht.
Qed.

Lemma trim_head s c : head (trim s) = Some c → is_trim_char c = false.
Proof. intros H. by apply trimEnd_head, trimStart_head in H. Qed.

Lemma trim_last s c : last (trim s) = Some c → is_trim_char c = false.
Proof. apply trimEnd_last. Qed.

Lemma trim_nil s : trim s = [] ↔ Forall (λ c, is_trim_char c = true) s.
Proof.
  split.
  - intros Hn. destruct (trim_split s) as (pre & post & Hs & Hpre & Hpost).
    rewrite Hs, Hn. simpl. by apply Forall_app.
  - intros Hall. unfold trim. apply trimStart_nil in Hall. rewrite Hall. reflexivity.
Qed.

Lemma trim_idempotent s : trim (trim s) = trim s.
Proof.
  unfold trim at 1. rewrite trimStart_fixed by apply trim_head.
  apply trimEnd_fixed, trim_last.
Qed.

End Trim.

(** X4. The payload of [handleSubmit]: [mood_score] is the selected score;
    [journal_text] is left out exactly when the journal holds nothing but
    white space, and is otherwise the journal with the white space at both
    ends removed (never empty, never starting or ending with white space);
    [manual_tags] is left out exactly when no tag is selected and is
    otherwise the list of selected tags. *)
Theorem handleSubmit_payload_shape (f : CheckInForm.Form) :
  CheckInForm.mood_score (CheckInForm.handleSubmit_payload f) = CheckInForm.score f
  ∧ (CheckInForm.journal_text (CheckInForm.handleSubmit_payload f) = None
     ↔ Forall (λ c, CheckInForm.is_trim_char c = true) (CheckInForm.journal f))
  ∧ (∀ t, CheckInForm.journal_text (CheckInForm.handleSubmit_payload f) = Some t →
       t ≠ []
       ∧ (∀ c, head t = Some c → CheckInForm.is_trim_char c = false)
       ∧ (∀ c, last t = Some c → CheckInForm.is_trim_char c = false)
       ∧ ∃ pre post, CheckInForm.journal f = pre ++ t ++ post
           ∧ Forall (λ c, CheckInForm.is_trim_char c = true) pre
           ∧ Forall (λ c, CheckInForm.is_trim_char c = true) post)
  ∧ (CheckInForm.manual_tags (CheckInForm.handleSubmit_payload f) = None
     ↔ CheckInForm.selectedTags f = [])
  ∧ (∀ l, CheckInForm.manual_tags (CheckInForm.handleSubmit_payload f) = Some l →
       l = CheckInForm.selectedTags f ∧ l ≠ []).
Proof.
  unfold CheckInForm.handleSubmit_payload. simpl. split_and!.
  - done.
  - rewrite <- trim_nil. destruct (CheckInForm.trim (CheckInForm.journal f)); split; done.
  - intros t Ht.
    assert (t = CheckInForm.trim (CheckInForm.journal f) ∧ t ≠ []) as [-> Hne].
    { destruct (CheckInForm.trim (CheckInForm.journal f)); [discriminate |].
      injection Ht as <-. done. }
    split_and!; [done | apply trim_head | apply trim_last | apply trim_split].
  - destruct (CheckInForm.selectedTags f); simpl; split; done.
  - intros l. destruct (CheckInForm.selectedTags f); simpl; [discriminate |].
    intros [= <-]. done.
Qed.

Lemma handleSubmit_payload_shape_witness :
  let f := {| CheckInForm.score := 7;
              CheckInForm.journal := [32; 10; 111; 107; 32; 33; 9; 160]%N;
              CheckInForm.selectedTags := ["calm"%string] |} in
  CheckInForm.journal_text (CheckInForm.handleSubmit_payload f) = Some [111; 107; 32; 33]%N
  ∧ [111; 107; 32; 33]%N ≠ [].
Proof.
  intros f. split; [reflexivity |].
  exact (proj1 (proj1 (proj2 (proj2 (handleSubmit_payload_shape f))) [111; 107; 32; 33]%N eq_refl)).
Defined.

Section FormInvariant.
Import CheckIn CheckInForm.

Lemma SCORES_range n : n ∈ SCORES → 1 ≤ n ≤ 10.
Proof. unfold SCORES. rewrite !elem_of_cons, elem_of_nil. lia. Qed.

Lemma toggleTag_elem key prev k : k ∈ toggleTag key prev → k = key ∨ k ∈ prev.
Proof.
  destruct (decide (k = key)) as [-> | Hne]; [by left |].
  rewrite toggleTag_other by done. by right.
Qed.

Lemma form_step_ok f ev : form_ok f → form_ok (form_step f ev).
Proof.
  intros Hf. pose proof Hf as (Hs & Hnd & Hsub).
  destruct ev as [i | text | i |]; unfold form_step.
  - destruct (SCORES !! i) as [n |] eqn:Hi; [| done].
    split; [| by split]. simpl. apply SCORES_range. by eapply list_elem_of_lookup_2.
  - done.
  - destruct (VALID_TAGS !! i) as [key |] eqn:Hi; [| done].
    split; [done |]. split; simpl; [by apply toggleTag_NoDup |].
    intros k [-> | Hk]%toggleTag_elem; [by eapply list_elem_of_lookup_2 | by apply Hsub].
  - split; [simpl; lia |]. split; simpl; [constructor |].
    intros k Hk. by apply elem_of_nil in Hk.
Qed.

Lemma form_run_ok evs f : form_ok f → form_ok (form_run evs f).
Proof.
  revert f. induction evs as [| ev evs IH]; intros f Hf; [done |].
  apply IH. by apply form_step_ok.
Qed.

End FormInvariant.

(** X5. Whatever the user does on the check-in form (pressing score boxes
    and tag pills, editing the journal, starting over), the score stays
    between 1 and 10 and the selected tags stay a duplicate-free list of
    valid tag keys; so the payload always passes the schema's check on
    [mood_score], and its [manual_tags], when present, are duplicate-free
    valid keys. *)
Theorem form_keeps_valid_score_and_tags (evs : list CheckInForm.FormEvent) :
  let f := CheckInForm.form_run evs CheckInForm.initial_form in
  1 ≤ CheckInForm.score f ≤ 10
  ∧ NoDup (CheckInForm.selectedTags f)
  ∧ (∀ k, k ∈ CheckInForm.selectedTags f → k ∈ CheckIn.VALID_TAGS)
  ∧ Schema.check (λ v, bool_decide (1 ≤ v ≤ 10))
      (Some (CheckInForm.mood_score (CheckInForm.handleSubmit_payload f))) = true
  ∧ (∀ l, CheckInForm.manual_tags (CheckInForm.handleSubmit_payload f) = Some l →
       NoDup l ∧ ∀ k, k ∈ l → k ∈ CheckIn.VALID_TAGS).
Proof.
  intros f.
  assert (Hok : CheckInForm.form_ok f).
  { apply form_run_ok. split; [simpl; lia |]. split; simpl; [constructor |].
    intros k Hk. by apply elem_of_nil in Hk. }
  destruct Hok as (Hs & Hnd & Hsub). split_and!; try done; try apply Hs.
  - simpl. by apply bool_decide_eq_true.
  - intros l. unfold CheckInForm.handleSubmit_payload. simpl.
    destruct (0 <? length (CheckInForm.selectedTags f))%nat; [| discriminate].
    intros [= <-]. done.
Qed.

Lemma form_keeps_valid_score_and_tags_witness :
  let evs := [ CheckInForm.PressScore 7; CheckInForm.PressTag 6; CheckInForm.PressTag 1;
               CheckInForm.PressTag 6; CheckInForm.PressScore 12;
               CheckInForm.ChangeText [111; 107]%N ] in
  CheckInForm.handleSubmit_payload (CheckInForm.form_run evs CheckInForm.initial_form)
  = {| CheckInForm.mood_score := 8; CheckInForm.journal_text := Some [111; 107]%N;
       CheckInForm.manual_tags := Some ["stressed"%string] |}
  ∧ NoDup ["stressed"%string].
Proof.
  intros evs. split; [reflexivity |].
  exact (proj1 (proj2 (proj2 (proj2 (proj2 (form_keeps_valid_score_and_tags evs))))
                  ["stressed"%string] eq_refl)).
Defined.

Section ToggleOrder.
Import CheckIn.

Lemma filter_other_id (key : string) (l : list string) :
  key ∉ l → filter (λ t, t ≠ key) l = l.
Proof.
  induction l as [| x l IH]; [done |].
  intros [Hx Hl]%not_elem_of_cons.
  rewrite filter_cons_True by done. by rewrite IH.
Qed.

Lemma filter_other_append (key : string) (l : list string) :
  NoDup l → key ∈ l → filter (λ t, t ≠ key) l ++ [key] ≡ₚ l.
Proof.
  induction l as [| x l IH]; [intros _ Hin; by apply elem_of_nil in Hin |].
  intros [Hx Hnd]%NoDup_cons Hin. destruct (decide (x = key)) as [-> | Hne].
  - rewrite filter_cons_False by (intros H; by apply H).
    rewrite filter_other_id by done. symmetry. apply Permutation_cons_append.
  - rewrite filter_cons_True by done. simpl. apply Permutation_skip.
    apply IH; [done |]. apply elem_of_cons in Hin as [-> | Hin]; done.
Qed.

End ToggleOrder.

(** X6. On a duplicate-free selection, [toggleTag] changes the number of
    selected tags by exactly one: one fewer when the key was selected, one
    more when it was not. *)
Theorem toggleTag_length (key : string) (prev : list string) :
  NoDup prev →
  (key ∈ prev → S (length (CheckIn.toggleTag key prev)) = length prev)
  ∧ (key ∉ prev → length (CheckIn.toggleTag key prev) = S (length prev)).
Proof.
  intros Hnd. split; intros Hk.
  - rewrite toggleTag_present by done.
    rewrite <- (Permutation_length (filter_other_append key prev Hnd Hk)).
    rewrite length_app. simpl. lia.
  - rewrite toggleTag_absent by done. rewrite length_app. simpl. lia.
Qed.

Lemma toggleTag_length_witness :
  NoDup ["calm"; "happy"]%string
  ∧ S (length (CheckIn.toggleTag "calm" ["calm"; "happy"]%string)) = 2%nat.
Proof.
  assert (Hnd : NoDup ["calm"; "happy"]%string) by (apply (bool_decide_unpack _); vm_compute; exact I).
  assert (Hin : "calm"%string ∈ ["calm"; "happy"]%string) by (apply elem_of_cons; by left).
  split; [exact Hnd |].
  exact (proj1 (toggleTag_length "calm" ["calm"; "happy"]%string Hnd) Hin).
Defined.

(** X7. Pressing the same tag twice: when the tag was not selected the list
    comes back unchanged; when it was selected (in a duplicate-free list)
    the tag comes back as the last element, the other tags keeping their
    order, so the list is a permutation of the original. *)
Theorem toggleTag_twice_order (key : string) (prev : list string) :
  (key ∉ prev → CheckIn.toggleTag key (CheckIn.toggleTag key prev) = prev)
  ∧ (NoDup prev → key ∈ prev →
     CheckIn.toggleTag key (CheckIn.toggleTag key prev) = filter (λ t, t ≠ key) prev ++ [key]
     ∧ CheckIn.toggleTag key (CheckIn.toggleTag key prev) ≡ₚ prev).
Proof.
  split.
  - intros Hk. rewrite (toggleTag_absent key prev Hk).
    rewrite toggleTag_present by (apply elem_of_app; right; by apply list_elem_of_singleton).
    rewrite filter_app, filter_other_id by done.
    rewrite filter_cons_False by (intros H; by apply H). by rewrite app_nil_r.
  - intros Hnd Hk. rewrite (toggleTag_present key prev Hk).
    assert (Hout : key ∉ filter (λ t, t ≠ key) prev).
    { rewrite list_elem_of_filter. intros [Hne _]. by apply Hne. }
    rewrite toggleTag_absent by done. split; [done |].
    by apply filter_other_append.
Qed.

Lemma toggleTag_twice_order_witness :
  CheckIn.toggleTag "calm" (CheckIn.toggleTag "calm" ["calm"; "happy"]%string)
  = ["happy"; "calm"]%string
  ∧ CheckIn.toggleTag "sad" (CheckIn.toggleTag "sad" ["calm"; "happy"]%string)
    = ["calm"; "happy"]%string.
Proof.
  assert (Hnd : NoDup ["calm"; "happy"]%string) by (apply (bool_decide_unpack _); vm_compute; exact I).
  assert (Hin : "calm"%string ∈ ["calm"; "happy"]%string) by (apply elem_of_cons; by left).
  assert (Hout : "sad"%string ∉ ["calm"; "happy"]%string) by (apply (bool_decide_unpack _); vm_compute; exact I).
  split.
  - exact (proj1 (proj2 (toggleTag_twice_order "calm" ["calm"; "happy"]%string) Hnd Hin)).
  - exact (proj1 (toggleTag_twice_order "sad" ["calm"; "happy"]%string) Hout).
Defined.

(* --------------------------------------------------------------------- *)
(** ** The hooks under every schedule *)
(* --------------------------------------------------------------------- *)

Section Schedules.
Import Api Hooks Driven.
Context {R : Type}.
Implicit Types (st : HookState R) (o : Settled R) (evs : list (Event R)).

Lemma run_cons ev evs st : run (ev :: evs) st = run evs (step st ev).
Proof. reflexivity. Qed.

Lemma run_result evs st data :
  result (run evs st) = Some data →
  result st = Some data ∨ EvSettle (Resolved data) ∈ evs.
Proof.
  revert st. induction evs as [| ev evs IH]; intros st; [by left |].
  rewrite run_cons. intros [H | H]%IH; [| right; by apply elem_of_cons; right].
  destruct ev as [| [d | e] |]; simpl in H.
  - by left.
  - injection H as ->. right. apply elem_of_cons. by left.
  - by left.
  - discriminate.
Qed.

Lemma run_errorMessage evs st m :
  errorMessage (run evs st) = Some m →
  errorMessage st = Some m ∨ ∃ e, EvSettle (Rejected e : Settled R) ∈ evs ∧ m = message_of e.
Proof.
  revert st. induction evs as [| ev evs IH]; intros st; [by left |].
  rewrite run_cons. intros [H | (e & He & Hm)]%IH.
  - destruct ev as [| [d | e] |]; simpl in H.
    + discriminate.
    + by left.
    + injection H as <-. right. exists e. split; [apply elem_of_cons; by left | done].
    + discriminate.
  - right. exists e. split; [apply elem_of_cons; by right | done].
Qed.

Lemma run_success evs st :
  status (run evs st) = success →
  status st = success ∨ ∃ data, EvSettle (Resolved data) ∈ evs.
Proof.
  revert st. induction evs as [| ev evs IH]; intros st; [by left |].
  rewrite run_cons. intros [H | (data & Hin)]%IH.
  - destruct ev as [| [d | e] |]; simpl in H; try discriminate.
    right. exists d. apply elem_of_cons. by left.
  - right. exists data. apply elem_of_cons. by right.
Qed.

(** While the status is loading, a request is pending. *)
Lemma loading_in_flight evs st pending :
  realisable pending evs = true →
  (status st = loading → (0 < pending)%nat) →
  status (run evs st) = loading → (0 < in_flight pending evs)%nat.
Proof.
  revert st pending. induction evs as [| ev evs IH]; intros st pending Hreal Hst; [done |].
  rewrite run_cons. destruct ev as [| o |]; simpl in Hreal |- *.
  - apply IH; [done |]. intros _. lia.
  - destruct pending as [| n]; [discriminate |]. simpl. apply IH; [done |].
    destruct o; discriminate.
  - apply IH; [done |]. discriminate.
Qed.

End Schedules.

(** X8. Under every schedule of begins, settlements and resets, overlapping
    calls included, starting from the initial cells: status error implies
    that errorMessage is set, and status success implies that some request
    of the schedule was resolved. *)
Theorem hook_status_backed_by_cell {R : Type} (evs : list (Hooks.Event R)) :
  (Hooks.status (Hooks.run evs Hooks.initial) = Hooks.error →
   is_Some (Hooks.errorMessage (Hooks.run evs Hooks.initial)))
  ∧ (Hooks.status (Hooks.run evs Hooks.initial) = Hooks.success →
     ∃ data, Hooks.EvSettle (Api.Resolved data) ∈ evs).
Proof.
  split.
  - apply (run_from_initial evs).
  - intros [H | H]%run_success; [discriminate | done].
Qed.

Lemma hook_status_backed_by_cell_witness :
  let evs : list (Hooks.Event Z) :=
    [ Hooks.EvBegin; Hooks.EvBegin; Hooks.EvSettle (Api.Resolved 1);
      Hooks.EvSettle (Api.Rejected Api.NotAnError) ] in
  Hooks.status (Hooks.run evs Hooks.initial) = Hooks.error
  ∧ is_Some (Hooks.errorMessage (Hooks.run evs Hooks.initial)).
Proof.
  intros evs. split; [reflexivity |].
  exact (proj1 (hook_status_backed_by_cell evs) eq_refl).
Defined.

(** X9. Under every schedule from the initial cells, the hook never shows
    anything it was not given: a result (data) in the cells is the value of
    some resolved request of the schedule, and an errorMessage is the
    message of some rejected one. *)
Theorem hook_cells_come_from_requests {R : Type} (evs : list (Hooks.Event R)) :
  (∀ data, Hooks.result (Hooks.run evs Hooks.initial) = Some data →
     Hooks.EvSettle (Api.Resolved data) ∈ evs)
  ∧ (∀ m, Hooks.errorMessage (Hooks.run evs Hooks.initial) = Some m →
       ∃ e, Hooks.EvSettle (Api.Rejected e) ∈ evs ∧ m = Hooks.message_of e).
Proof.
  split.
  - intros data [H | H]%run_result; [discriminate | done].
  - intros m [H | H]%run_errorMessage; [discriminate | done].
Qed.

Lemma hook_cells_come_from_requests_witness :
  let evs : list (Hooks.Event Z) :=
    [ Hooks.EvBegin; Hooks.EvSettle (Api.Resolved 1); Hooks.EvBegin;
      Hooks.EvSettle (Api.Rejected (Api.TypeError "Network request failed")) ] in
  Hooks.result (Hooks.run evs Hooks.initial) = Some 1
  ∧ Hooks.EvSettle (Api.Resolved 1) ∈ evs.
Proof.
  intros evs. split; [reflexivity |].
  exact (proj1 (hook_cells_come_from_requests evs) 1 eq_refl).
Defined.

(** X10. In a schedule where every settlement answers a pending request,
    status loading implies that a request is still pending: the spinner is
    never shown with nothing in flight. *)
Theorem loading_implies_request_pending {R : Type} (evs : list (Hooks.Event R)) :
  Hooks.realisable 0 evs = true →
  Hooks.status (Hooks.run evs Hooks.initial) = Hooks.loading →
  (0 < Driven.in_flight 0 evs)%nat.
Proof.
  intros Hreal. apply loading_in_flight; [done | discriminate].
Qed.

Lemma loading_implies_request_pending_witness :
  let evs : list (Hooks.Event Z) :=
    [ Hooks.EvBegin; Hooks.EvSettle (Api.Resolved 1); Hooks.EvReset; Hooks.EvBegin ] in
  Hooks.status (Hooks.run evs Hooks.initial) = Hooks.loading
  ∧ (0 < Driven.in_flight 0 evs)%nat.
Proof.
  intros evs. split; [reflexivity |].
  exact (loading_implies_request_pending evs eq_refl eq_refl).
Defined.

(* --------------------------------------------------------------------- *)
(** ** Schedules driven through the screens *)
(* --------------------------------------------------------------------- *)

Section DrivenSchedules.
Import Api Hooks Driven.
Context {R : Type}.
Variables can_begin can_reset : HookState R → bool.
Hypothesis can_begin_idle_or_error :
  ∀ st, can_begin st = true → status st = idle ∨ status st = error.
Hypothesis can_reset_not_loading :
  ∀ st, can_reset st = true → status st ≠ loading.
Implicit Types (st : HookState R) (n : nat) (o : Settled R) (evs : list (Event R)).

Lemma serialised_begin st n :
  serialised st n → can_begin st = true → serialised (begin st) (S n).
Proof.
  intros (Hn & Hload & _) Hb.
  assert (n = 0%nat) as ->.
  { destruct (can_begin_idle_or_error st Hb) as [Hs | Hs];
      destruct (decide (n = 1%nat)) as [Hn1 | Hn1]; try lia;
      apply Hload in Hn1; congruence. }
  unfold serialised; simpl. split_and!; try done; try lia.
Qed.

Lemma serialised_settle st n o :
  serialised st (S n) → serialised (settle o st) n.
Proof.
  intros (Hn & Hload & Hmsg & _).
  assert (n = 0%nat) as -> by lia.
  assert (status st = loading) as Hs by (by apply Hload).
  specialize (Hmsg Hs).
  unfold serialised. destruct o as [data | e]; simpl; rewrite ?Hmsg;
    split_and!; try done; try lia; eauto; try (split; [discriminate | lia]).
Qed.

Lemma serialised_reset st n :
  serialised st n → can_reset st = true → serialised (reset st) n.
Proof.
  intros (Hn & Hload & _) Hr.
  assert (n = 0%nat) as ->.
  { destruct (decide (n = 1%nat)) as [Hn1 | Hn1]; [| lia].
    apply Hload in Hn1. by apply can_reset_not_loading in Hr. }
  unfold serialised; simpl.
  split_and!; try done; try lia; try (split; [discriminate | lia]).
Qed.

Lemma driven_serialised evs st n st' n' :
  serialised st n →
  driven can_begin can_reset evs st n = Some (st', n') →
  serialised st' n'.
Proof.
  revert st n. induction evs as [| ev evs IH]; intros st n Hinv; simpl.
  - by intros [= <- <-].
  - destruct ev as [| o |].
    + destruct (can_begin st) eqn:Hb; [| discriminate].
      apply IH. by apply serialised_begin.
    + destruct n as [| n]; [discriminate |].
      apply IH. by apply serialised_settle.
    + destruct (can_reset st) eqn:Hr; [| discriminate].
      apply IH. by apply serialised_reset.
Qed.

End DrivenSchedules.

Section ScreenGuards.
Import Hooks Driven.

Lemma serialised_initial {R : Type} : serialised (@initial R) 0.
Proof.
  unfold serialised; simpl.
  split_and!; try done; try lia; try (split; [discriminate | lia]).
Qed.

Lemma checkin_can_submit_status (st : HookState CheckinResponse) :
  checkin_can_submit st = true → status st = idle ∨ status st = error.
Proof.
  unfold checkin_can_submit, CheckInForm.CheckInScreen.
  destruct (status st); try discriminate; auto.
Qed.

Lemma checkin_can_reset_status (st : HookState CheckinResponse) : checkin_can_reset st = true → status st ≠ loading.
Proof.
  unfold checkin_can_reset, CheckInForm.CheckInScreen.
  destruct (status st); discriminate.
Qed.

Lemma prescription_can_fetch_status (st : HookState PrescriptionResponse) :
  prescription_can_fetch st = true → status st = idle ∨ status st = error.
Proof.
  unfold prescription_can_fetch, Screen.PrescriptionScreen.
  destruct (status st); auto; try discriminate.
  destruct (result st) as [d |]; [| discriminate].
  destruct (negb (has_data d)); [discriminate |].
  destruct (prescription d); discriminate.
Qed.

End ScreenGuards.

(** X11. Driven through the check-in screen (a submit only from the enabled
    button of the form, a reset only from the success view), submit calls
    never overlap: at most one request is pending, exactly while the status
    is loading, and status success implies that errorMessage is null;
    status error implies that errorMessage is set. *)
Theorem checkin_screen_serialises_submits (evs : list (Hooks.Event Hooks.CheckinResponse))
    (st : Hooks.HookState Hooks.CheckinResponse) (pending : nat) :
  Driven.driven Driven.checkin_can_submit Driven.checkin_can_reset evs Hooks.initial 0
  = Some (st, pending) →
  (pending ≤ 1)%nat
  ∧ (Hooks.status st = Hooks.loading ↔ pending = 1%nat)
  ∧ (Hooks.status st = Hooks.success → Hooks.errorMessage st = None)
  ∧ (Hooks.status st = Hooks.error → is_Some (Hooks.errorMessage st)).
Proof.
  intros Hrun.
  destruct (driven_serialised _ _ checkin_can_submit_status checkin_can_reset_status
              evs _ _ _ _ serialised_initial Hrun) as (Hn & Hload & _ & Hok & Herr & _).
  done.
Qed.

Lemma checkin_screen_serialises_submits_witness :
  let data := {| Hooks.id := "c1"; Hooks.created_at := "2026-01-05T08:00:00Z";
                 Hooks.mood_score := 6; Hooks.journal_text_stored := false;
                 Hooks.ai_processed := false; Hooks.classification := None;
                 Hooks.manual_tags := None |} in
  let evs := [ Hooks.EvBegin; Hooks.EvSettle (Api.Rejected (Api.JsError "API 500: down"));
               Hooks.EvBegin; Hooks.EvSettle (Api.Resolved data) ] in
  let st := {| Hooks.status := Hooks.success; Hooks.errorMessage := None;
               Hooks.result := Some data |} in
  Driven.driven Driven.checkin_can_submit Driven.checkin_can_reset evs Hooks.initial 0
  = Some (st, 0%nat)
  ∧ (Hooks.status st = Hooks.success → Hooks.errorMessage st = None).
Proof.
  intros data evs st. split; [reflexivity |].
  exact (proj1 (proj2 (proj2 (checkin_screen_serialises_submits evs st 0 eq_refl)))).
Defined.

(** X12. Driven through the prescription screen (a fetch from the mount
    effect and from the retry button of the error card, never a reset),
    fetch calls never overlap, and the same holds: at most one request is
    pending, exactly while the status is loading; status success implies
    errorMessage null; status error implies errorMessage set. *)
Theorem prescription_screen_serialises_fetches
    (evs : list (Hooks.Event Hooks.PrescriptionResponse))
    (st : Hooks.HookState Hooks.PrescriptionResponse) (pending : nat) :
  Driven.driven Driven.prescription_can_fetch Driven.prescription_can_reset evs Hooks.initial 0
  = Some (st, pending) →
  (pending ≤ 1)%nat
  ∧ (Hooks.status st = Hooks.loading ↔ pending = 1%nat)
  ∧ (Hooks.status st = Hooks.success → Hooks.errorMessage st = None)
  ∧ (Hooks.status st = Hooks.error → is_Some (Hooks.errorMessage st)).
Proof.
  intros Hrun.
  assert (Hreset : ∀ s : Hooks.HookState Hooks.PrescriptionResponse,
            Driven.prescription_can_reset s = true → Hooks.status s ≠ Hooks.loading)
    by (intros s; discriminate).
  destruct (driven_serialised _ _ prescription_can_fetch_status Hreset
              evs _ _ _ _ serialised_initial Hrun) as (Hn & Hload & _ & Hok & Herr & _).
  done.
Qed.

Lemma prescription_screen_serialises_fetches_witness :
  let data := {| Hooks.prescription := None; Hooks.has_data := false;
                 Hooks.disclaimer := "MindRep is a wellness tool, not a medical device." |} in
  let evs := [ Hooks.EvBegin;
               Hooks.EvSettle (Api.Rejected (Api.TypeError "Network request failed"));
               Hooks.EvBegin; Hooks.EvSettle (Api.Resolved data) ] in
  let st := {| Hooks.status := Hooks.success; Hooks.errorMessage := None;
               Hooks.result := Some data |} in
  Driven.driven Driven.prescription_can_fetch Driven.prescription_can_reset evs Hooks.initial 0
  = Some (st, 0%nat)
  ∧ (0 ≤ 1)%nat.
Proof.
  intros data evs st. split; [reflexivity |].
  exact (proj1 (prescription_screen_serialises_fetches evs st 0 eq_refl)).
Defined.

(* --------------------------------------------------------------------- *)
(** ** From the response to the screen *)
(* --------------------------------------------------------------------- *)

Section EndToEnd.
Import Api.

Lemma apiFetch_outcome {T : Type} session (net : Request → FetchOutcome T) path options :
  apiFetch session net path options
  = match net (request session path options) with
    | NetworkFailure m => Rejected (TypeError m)
    | Responded res =>
        if ok res then
          match json res with
          | Parsed v => Resolved v
          | NotJson m => Rejected (SyntaxError m)
          end
        else Rejected (JsError ("API " +:+ pretty (status res) +:+ ": " +:+ text res)%string)
    end.
Proof.
  unfold apiFetch. destruct (net (request session path options)) as [res | m]; [| done].
  by destruct (ok res).
Qed.

End EndToEnd.

(** X13. What [apiFetch] can return: it resolves to [v] exactly when the
    server responded ok with a body that parses to [v]; it rejects with a
    [TypeError] exactly when no response arrived and with a [SyntaxError]
    exactly when an ok response did not parse; it never rejects with a
    value that is not an [Error]. *)
Theorem apiFetch_outcomes {T : Type} (session : option string)
    (net : Api.Request → Api.FetchOutcome T) (path : string) (options : Api.RequestInit) :
  (∀ v, Api.apiFetch session net path options = Api.Resolved v
        ↔ ∃ res, net (Api.request session path options) = Api.Responded res
                 ∧ Api.ok res = true ∧ Api.json res = Api.Parsed v)
  ∧ (∀ m, Api.apiFetch session net path options = Api.Rejected (Api.TypeError m)
          ↔ net (Api.request session path options) = Api.NetworkFailure m)
  ∧ (∀ m, Api.apiFetch session net path options = Api.Rejected (Api.SyntaxError m)
          ↔ ∃ res, net (Api.request session path options) = Api.Responded res
                   ∧ Api.ok res = true ∧ Api.json res = Api.NotJson m)
  ∧ Api.apiFetch session net path options ≠ Api.Rejected Api.NotAnError.
Proof.
  rewrite apiFetch_outcome.
  destruct (net (Api.request session path options)) as [res | m0].
  - destruct (Api.ok res) eqn:Hok; [destruct (Api.json res) as [v0 | m0] eqn:Hj |].
    + split_and!; [| | | done].
      * intros v. split; [intros [= <-]; eauto | intros (r & [= <-] & _ & Hv); congruence].
      * intros m. split; discriminate.
      * intros m. split; [discriminate | intros (r & [= <-] & _ & Hv); congruence].
    + split_and!; [| | | done].
      * intros v. split; [discriminate | intros (r & [= <-] & _ & Hv); congruence].
      * intros m. split; discriminate.
      * intros m. split; [intros [= <-]; eauto | intros (r & [= <-] & _ & Hv); congruence].
    + split_and!; [| | | done].
      * intros v. split; [discriminate | intros (r & [= <-] & Hr & _); congruence].
      * intros m. split; discriminate.
      * intros m. split; [discriminate | intros (r & [= <-] & Hr & _); congruence].
  - split_and!; [| | | done].
    + intros v. split; [discriminate | intros (r & Hr & _); discriminate].
    + intros m. split; congruence.
    + intros m. split; [discriminate | intros (r & Hr & _); discriminate].
Qed.

Lemma apiFetch_outcomes_witness :
  let res : Api.Response Z :=
    {| Api.ok := true; Api.status := 200; Api.text := "42"; Api.json := Api.Parsed 42 |} in
  Api.apiFetch None (λ _, Api.Responded res) "/prescriptions/today" Api.no_options
  = Api.Resolved 42.
Proof.
  intros res.
  apply (proj1 (apiFetch_outcomes None (λ _, Api.Responded res) "/prescriptions/today"
                  Api.no_options)).
  exists res. split_and!; reflexivity.
Defined.

(** X14. The headers of every request: Content-Type and Authorization come
    from the caller's own headers when the caller gives them; otherwise
    Content-Type is application/json and Authorization is "Bearer <token>"
    when there is a session and absent when there is none.  Every other
    header is the caller's: nothing else is added. *)
Theorem request_headers_lookup (session : option string) (path : string)
    (options : Api.RequestInit) (k : string) :
  Api.req_headers (Api.request session path options) !! k
  = match default ∅ (Api.headers options) !! k with
    | Some v => Some v
    | None =>
        if decide (k = "Content-Type"%string) then Some "application/json"%string
        else if decide (k = "Authorization"%string)
             then (λ token, "Bearer " +:+ token)%string <$> session
             else None
    end.
Proof.
  simpl. unfold Api.merged_headers. rewrite lookup_union.
  destruct (default ∅ (Api.headers options) !! k) as [v |] eqn:Hk.
  - by destruct ((Api.authHeader session ∪ _) !! k).
  - rewrite (left_id None _). rewrite lookup_union.
    destruct (decide (k = "Content-Type"%string)) as [-> | Hct].
    + by rewrite authHeader_content_type, lookup_singleton_eq.
    + rewrite lookup_singleton_ne by done. rewrite (right_id None _).
      destruct session as [token |]; simpl.
      * destruct (decide (k = "Authorization"%string)) as [-> | Hau].
        -- by rewrite lookup_singleton_eq.
        -- by rewrite lookup_singleton_ne.
      * rewrite lookup_empty. by destruct (decide (k = "Authorization"%string)).
Qed.

(** X15. After a [submit] from any state the check-in screen shows: the
    success view when the server responded ok with a body that parses; the
    form with the error box "API <status>: <body>" when the response was
    not ok; the form is never left with its button disabled. *)
Theorem checkin_screen_after_submit (session : option string)
    (net : Api.Request → Api.FetchOutcome Hooks.CheckinResponse) (payload_json : string)
    (st : Hooks.HookState Hooks.CheckinResponse) (res : Api.Response Hooks.CheckinResponse) :
  net (Api.request session "/mood/checkin"
         {| Api.method := Some "POST"%string; Api.body := Some payload_json;
            Api.headers := None |}) = Api.Responded res →
  (Api.ok res = false →
   CheckInForm.CheckInScreen (Hooks.submit session net payload_json st)
   = CheckInForm.FormView false
       (Some ("API " +:+ pretty (Api.status res) +:+ ": " +:+ Api.text res)%string))
  ∧ (Api.ok res = true → ∀ data, Api.json res = Api.Parsed data →
     CheckInForm.CheckInScreen (Hooks.submit session net payload_json st)
     = CheckInForm.SuccessView
     ∧ Hooks.result (Hooks.submit session net payload_json st) = Some data)
  ∧ CheckInForm.CheckInScreen (Hooks.submit session net payload_json st)
    ≠ CheckInForm.FormView true None.
Proof.
  intros Hres. unfold Hooks.submit, Api.post. rewrite apiFetch_outcome, Hres.
  split_and!.
  - intros ->. reflexivity.
  - intros -> data ->. done.
  - destruct (Api.ok res); [destruct (Api.json res) |]; discriminate.
Qed.

Lemma checkin_screen_after_submit_witness :
  let res : Api.Response Hooks.CheckinResponse :=
    {| Api.ok := false; Api.status := 422; Api.text := "mood_score out of range";
       Api.json := Api.NotJson "Unexpected token m in JSON at position 0" |} in
  CheckInForm.CheckInScreen
    (Hooks.submit None (λ _, Api.Responded res) "{}" Hooks.initial)
  = CheckInForm.FormView false (Some "API 422: mood_score out of range"%string).
Proof.
  intros res.
  exact (proj1 (checkin_screen_after_submit None (λ _, Api.Responded res) "{}" Hooks.initial
                  res eq_refl) eq_refl).
Defined.

(** X16. After a [fetch] from any state the prescription screen never shows
    the loading view and never shows what an earlier fetch left in the
    cells: an error card carries the message of this fetch's rejection, and
    a recommendation card carries the prescription of this fetch's
    response. *)
Theorem prescription_screen_after_fetch (session : option string)
    (net : Api.Request → Api.FetchOutcome Hooks.PrescriptionResponse)
    (st : Hooks.HookState Hooks.PrescriptionResponse) :
  Screen.PrescriptionScreen (Hooks.fetch session net st) ≠ Screen.LoadingView
  ∧ (∀ m, Screen.PrescriptionScreen (Hooks.fetch session net st) = Screen.ErrorCard m →
       ∃ e, Api.get session net "/prescriptions/today" = Api.Rejected e
            ∧ m = Some (Hooks.message_of e))
  ∧ (∀ p disc,
       Screen.PrescriptionScreen (Hooks.fetch session net st) = Screen.RecommendationCard p disc →
       ∃ d, Api.get session net "/prescriptions/today" = Api.Resolved d
            ∧ Hooks.has_data d = true ∧ Hooks.prescription d = Some p
            ∧ Hooks.disclaimer d = disc).
Proof.
  unfold Hooks.fetch.
  destruct (Api.get session net "/prescriptions/today") as [d | e]; rewrite ?call_resolved, ?call_rejected.
  - split_and!.
    + unfold Screen.PrescriptionScreen. simpl.
      destruct (negb (Hooks.has_data d)); [done |]. by destruct (Hooks.prescription d).
    + intros m. unfold Screen.PrescriptionScreen. simpl.
      destruct (negb (Hooks.has_data d)); [done |]. by destruct (Hooks.prescription d).
    + intros p disc Hv.
      apply screen_recommendation_inv in Hv as (_ & d' & [= <-] & Hd & Hp & Hdisc). eauto.
  - split_and!.
    + done.
    + intros m [= <-]. eauto.
    + intros p disc. discriminate.
Qed.

Lemma prescription_screen_after_fetch_witness :
  let stale := {| Hooks.prescription := None; Hooks.has_data := false;
                  Hooks.disclaimer := "MindRep is a wellness tool, not a medical device." |} in
  let st := {| Hooks.status := Hooks.success; Hooks.errorMessage := None;
               Hooks.result := Some stale |} in
  Screen.PrescriptionScreen (Hooks.fetch None (λ _, Api.NetworkFailure "Network request failed") st)
  = Screen.ErrorCard (Some "Network request failed"%string)
  ∧ ∃ e, Api.get (T := Hooks.PrescriptionResponse) None
           (λ _, Api.NetworkFailure "Network request failed") "/prescriptions/today"
         = Api.Rejected e
         ∧ Some "Network request failed"%string = Some (Hooks.message_of e).
Proof.
  intros stale st. split; [reflexivity |].
  exact (proj1 (proj2 (prescription_screen_after_fetch None
                         (λ _, Api.NetworkFailure "Network request failed") st)) _ eq_refl).
Defined.

(* --------------------------------------------------------------------- *)
(** ** Row-level security *)
(* --------------------------------------------------------------------- *)

Section RowLevelSecurity.
Import Policies.

Lemma permitted_spec uid t cmd r :
  permitted uid t cmd r = true
  ↔ ∃ p, p ∈ policies ∧ on_table p = t ∧ for_command p = cmd
         ∧ uid = Some (column_value (uid_column p) r).
Proof.
  unfold permitted. assert (rls_enabled t = true) as -> by (by destruct t).
  rewrite existsb_exists. split.
  - intros (p & Hin & Hp). apply andb_true_iff in Hp as [Hp Hadm].
    apply andb_true_iff in Hp as [Ht Hc].
    exists p. split_and!; [by apply list_elem_of_In | | |];
      by eapply bool_decide_eq_true_1.
  - intros (p & Hin & Ht & Hc & Hu). exists p. split; [by apply list_elem_of_In |].
    unfold policy_admits. by rewrite !bool_decide_eq_true_2.
Qed.

Lemma policies_compare_owner p r :
  p ∈ policies → column_value (uid_column p) r = owner (on_table p) r.
Proof.
  unfold policies. rewrite !elem_of_cons, elem_of_nil.
  intros H. repeat (destruct H as [-> | H]; [reflexivity |]). done.
Qed.

Lemma no_policy_denied uid t cmd r :
  existsb (λ p, bool_decide (on_table p = t) && bool_decide (for_command p = cmd)) policies = false →
  permitted uid t cmd r = false.
Proof.
  intros Hnone. apply not_true_is_false. intros (p & Hin & Ht & Hc & _)%permitted_spec.
  apply not_true_iff_false in Hnone. apply Hnone, existsb_exists.
  exists p. split; [by apply list_elem_of_In |]. by rewrite !bool_decide_eq_true_2.
Qed.

Lemma permitted_owner uid t cmd r :
  permitted uid t cmd r = true → uid = Some (owner t r).
Proof.
  intros (p & Hin & <- & _ & ->)%permitted_spec.
  by rewrite (policies_compare_owner p r Hin).
Qed.

Lemma owner_permitted t cmd r :
  existsb (λ p, bool_decide (on_table p = t) && bool_decide (for_command p = cmd)) policies = true →
  permitted (Some (owner t r)) t cmd r = true.
Proof.
  intros (p & Hin & Hp)%existsb_exists. apply andb_true_iff in Hp as [Ht Hc].
  apply bool_decide_eq_true_1 in Ht. apply bool_decide_eq_true_1 in Hc.
  apply list_elem_of_In in Hin.
  apply permitted_spec. exists p. split_and!; try done.
  rewrite (policies_compare_owner p r Hin). by rewrite Ht.
Qed.

End RowLevelSecurity.

(** X17. Row-level security isolates users: whatever the table and the
    command, an operation is permitted only to the signed-in user the row
    belongs to; nobody signed in means no access at all. *)
Theorem rls_permits_only_the_owner (uid : option string) (t : Policies.Table)
    (cmd : Policies.Command) (r : Policies.Row) :
  Policies.permitted uid t cmd r = true → uid = Some (Policies.owner t r).
Proof. apply permitted_owner. Qed.

Lemma rls_permits_only_the_owner_witness :
  let r := {| Policies.row_id := "e1"; Policies.row_user_id := "u1" |} in
  Policies.permitted (Some "u1"%string) Policies.exercise_sessions Policies.UPDATE r = true
  ∧ Policies.permitted (Some "u2"%string) Policies.exercise_sessions Policies.UPDATE r = false
  ∧ Some "u1"%string = Some (Policies.owner Policies.exercise_sessions r).
Proof.
  intros r. split; [reflexivity |]. split; [reflexivity |].
  exact (rls_permits_only_the_owner (Some "u1"%string) Policies.exercise_sessions
           Policies.UPDATE r eq_refl).
Defined.

(** X18. What the policies never allow: prescriptions and correlations are
    read-only (no insert, update or delete by any user); a check-in and a
    wearable row cannot be updated once stored; a user can neither insert
    nor delete a [users] row. *)
Theorem rls_denied_commands (uid : option string) (r : Policies.Row) (cmd : Policies.Command) :
  (cmd ≠ Policies.SELECT →
   Policies.permitted uid Policies.mood_prescriptions cmd r = false
   ∧ Policies.permitted uid Policies.user_correlations cmd r = false)
  ∧ Policies.permitted uid Policies.mood_checkins Policies.UPDATE r = false
  ∧ Policies.permitted uid Policies.wearable_daily Policies.UPDATE r = false
  ∧ Policies.permitted uid Policies.users Policies.INSERT r = false
  ∧ Policies.permitted uid Policies.users Policies.DELETE r = false.
Proof.
  split_and!; try (apply no_policy_denied; reflexivity).
  intros Hcmd. split; apply no_policy_denied; destruct cmd; done.
Qed.

Lemma rls_denied_commands_witness :
  let r := {| Policies.row_id := "p1"; Policies.row_user_id := "u1" |} in
  Policies.permitted (Some "u1"%string) Policies.mood_prescriptions Policies.SELECT r = true
  ∧ Policies.permitted (Some "u1"%string) Policies.mood_prescriptions Policies.DELETE r = false.
Proof.
  intros r. split; [reflexivity |].
  assert (Hne : Policies.DELETE ≠ Policies.SELECT) by discriminate.
  exact (proj1 (proj1 (rls_denied_commands (Some "u1"%string) r Policies.DELETE) Hne)).
Defined.

(** X19. What the policies allow the owner: to read the own rows of all six
    tables; to insert and delete own check-ins, wearable rows and exercise
    sessions; to update own exercise sessions and the own [users] row.  An
    update that hands an exercise session to another user is refused. *)
Theorem rls_owner_commands (t : Policies.Table) (r new : Policies.Row) :
  Policies.permitted (Some (Policies.owner t r)) t Policies.SELECT r = true
  ∧ (t = Policies.mood_checkins ∨ t = Policies.wearable_daily ∨ t = Policies.exercise_sessions →
     Policies.permitted (Some (Policies.owner t r)) t Policies.INSERT r = true
     ∧ Policies.permitted (Some (Policies.owner t r)) t Policies.DELETE r = true)
  ∧ (t = Policies.exercise_sessions ∨ t = Policies.users →
     Policies.permitted (Some (Policies.owner t r)) t Policies.UPDATE r = true)
  ∧ (Policies.row_user_id new ≠ Policies.row_user_id r →
     Policies.update_permitted (Some (Policies.row_user_id r)) Policies.exercise_sessions r new
     = false).
Proof.
  split_and!.
  - apply owner_permitted. by destruct t.
  - intros [-> | [-> | ->]]; split; by apply owner_permitted.
  - intros [-> | ->]; by apply owner_permitted.
  - intros Hne. unfold Policies.update_permitted. apply andb_false_iff. right.
    apply not_true_is_false. intros Hp%permitted_owner.
    simpl in Hp. congruence.
Qed.

Lemma rls_owner_commands_witness :
  let r := {| Policies.row_id := "e1"; Policies.row_user_id := "u1" |} in
  let new := {| Policies.row_id := "e1"; Policies.row_user_id := "u2" |} in
  Policies.update_permitted (Some "u1"%string) Policies.exercise_sessions r r = true
  ∧ Policies.update_permitted (Some "u1"%string) Policies.exercise_sessions r new = false.
Proof.
  intros r new. split; [reflexivity |].
  assert (Hne : Policies.row_user_id new ≠ Policies.row_user_id r) by discriminate.
  exact (proj2 (proj2 (proj2 (rls_owner_commands Policies.exercise_sessions r new))) Hne).
Defined.

(* --------------------------------------------------------------------- *)
(** ** The tables as a state *)
(* --------------------------------------------------------------------- *)

Section DatabaseInvariants.
Import Schema Database.
Implicit Types (db : DB) (ids : gset string).

Lemma references_change ids ids' (v : option string) :
  references ids v = true →
  (∀ u, v = Some u → u ∈ ids → u ∈ ids') →
  references ids' v = true.
Proof.
  destruct v as [u |]; simpl; [| done].
  intros Hin%bool_decide_eq_true_1 Hsub. apply bool_decide_eq_true_2. by apply Hsub.
Qed.

Ltac accepts_change :=
  let H := fresh "H" in
  let Hsub := fresh "Hsub" in
  intros H Hsub; rewrite ?andb_true_iff in *;
  repeat match goal with
         | Hc : _ ∧ _ |- _ => destruct Hc
         end;
  repeat split; try done; by eapply references_change.

Lemma mood_checkins_accepts_change ids ids' r :
  mood_checkins_accepts ids r = true →
  (∀ u, mc_user_id r = Some u → u ∈ ids → u ∈ ids') →
  mood_checkins_accepts ids' r = true.
Proof. unfold mood_checkins_accepts. accepts_change. Qed.

Lemma wearable_daily_accepts_change ids ids' r :
  wearable_daily_accepts ids r = true →
  (∀ u, w_user_id r = Some u → u ∈ ids → u ∈ ids') →
  wearable_daily_accepts ids' r = true.
Proof. unfold wearable_daily_accepts. accepts_change. Qed.

Lemma exercise_sessions_accepts_change ids ids' r :
  exercise_sessions_accepts ids r = true →
  (∀ u, es_user_id r = Some u → u ∈ ids → u ∈ ids') →
  exercise_sessions_accepts ids' r = true.
Proof. unfold exercise_sessions_accepts. accepts_change. Qed.

Lemma mood_prescriptions_accepts_change ids ids' r :
  mood_prescriptions_accepts ids r = true →
  (∀ u, mp_user_id r = Some u → u ∈ ids → u ∈ ids') →
  mood_prescriptions_accepts ids' r = true.
Proof. unfold mood_prescriptions_accepts. accepts_change. Qed.

Lemma user_correlations_accepts_change ids ids' r :
  user_correlations_accepts ids r = true →
  (∀ u, uc_user_id r = Some u → u ∈ ids → u ∈ ids') →
  user_correlations_accepts ids' r = true.
Proof. unfold user_correlations_accepts. accepts_change. Qed.

Lemma user_ids_elem db u : u ∈ user_ids db ↔ ∃ r, r ∈ t_users db ∧ u_id r = Some u.
Proof. unfold user_ids. rewrite elem_of_list_to_set, list_elem_of_omap. done. Qed.

Lemma user_ids_delete db uid u :
  u ∈ user_ids (delete_user uid db) ↔ u ∈ user_ids db ∧ u ≠ uid.
Proof.
  rewrite !user_ids_elem. simpl. split.
  - intros (r & [Hne Hr]%list_elem_of_filter & Hu). split; [eauto | congruence].
  - intros [(r & Hr & Hu) Hne]. exists r. split; [| done].
    apply list_elem_of_filter. split; [congruence | done].
Qed.

Lemma deleted_user_gone db uid : uid ∉ user_ids (delete_user uid db).
Proof. rewrite user_ids_delete. tauto. Qed.

Lemma references_deleted db uid (v : option string) :
  v = Some uid → references (user_ids (delete_user uid db)) v = false.
Proof.
  intros ->. simpl. apply bool_decide_eq_false_2. apply deleted_user_gone.
Qed.

End DatabaseInvariants.

Section DatabaseSteps.
Import Schema Database.
Implicit Types (db : DB) (ids : gset string) (stmt : Statement).

Lemma user_ids_grow db db' u :
  (∀ r, r ∈ t_users db → r ∈ t_users db') → u ∈ user_ids db → u ∈ user_ids db'.
Proof.
  rewrite !user_ids_elem. intros Hsub (r' & Hr' & Hu). exists r'. split; [by apply Hsub | done].
Qed.

Lemma execute_constraints db stmt db' :
  constraints_hold db → execute db stmt = Some db' → constraints_hold db'.
Proof.
  intros (Hu & Hc & Hw & Hs & Hp & Hr). destruct stmt as [r | r | r | r | r | r | uid]; simpl.
  - destruct (users_accepts r && _ && _) eqn:Hok; [| discriminate]. intros [= <-].
    apply andb_true_iff in Hok as [[Hacc _]%andb_true_iff _].
    unfold constraints_hold; simpl. split_and!.
    + apply Forall_app. split; [done | by constructor].
    + eapply Forall_impl; [exact Hc |]. intros x Hx.
      eapply mood_checkins_accepts_change; [exact Hx |]. intros u _. apply user_ids_grow. simpl. intros r' Hr'. apply elem_of_app. by left.
    + eapply Forall_impl; [exact Hw |]. intros x Hx.
      eapply wearable_daily_accepts_change; [exact Hx |]. intros u _. apply user_ids_grow. simpl. intros r' Hr'. apply elem_of_app. by left.
    + eapply Forall_impl; [exact Hs |]. intros x Hx.
      eapply exercise_sessions_accepts_change; [exact Hx |]. intros u _. apply user_ids_grow. simpl. intros r' Hr'. apply elem_of_app. by left.
    + eapply Forall_impl; [exact Hp |]. intros x Hx.
      eapply mood_prescriptions_accepts_change; [exact Hx |]. intros u _. apply user_ids_grow. simpl. intros r' Hr'. apply elem_of_app. by left.
    + eapply Forall_impl; [exact Hr |]. intros x Hx.
      eapply user_correlations_accepts_change; [exact Hx |]. intros u _. apply user_ids_grow. simpl. intros r' Hr'. apply elem_of_app. by left.
  - destruct (mood_checkins_accepts (user_ids db) r && _) eqn:Hok; [| discriminate].
    intros [= <-]. apply andb_true_iff in Hok as [Hacc _].
    unfold constraints_hold, user_ids in *; simpl.
    split_and!; try done. apply Forall_app. split; [done | by constructor].
  - destruct (wearable_daily_accepts (user_ids db) r && _ && _) eqn:Hok; [| discriminate].
    intros [= <-]. apply andb_true_iff in Hok as [[Hacc _]%andb_true_iff _].
    unfold constraints_hold, user_ids in *; simpl.
    split_and!; try done. apply Forall_app. split; [done | by constructor].
  - destruct (exercise_sessions_accepts (user_ids db) r && _) eqn:Hok; [| discriminate].
    intros [= <-]. apply andb_true_iff in Hok as [Hacc _].
    unfold constraints_hold, user_ids in *; simpl.
    split_and!; try done. apply Forall_app. split; [done | by constructor].
  - destruct (mood_prescriptions_accepts (user_ids db) r && _) eqn:Hok; [| discriminate].
    intros [= <-]. apply andb_true_iff in Hok as [Hacc _].
    unfold constraints_hold, user_ids in *; simpl.
    split_and!; try done. apply Forall_app. split; [done | by constructor].
  - destruct (user_correlations_accepts (user_ids db) r && _) eqn:Hok; [| discriminate].
    intros [= <-]. apply andb_true_iff in Hok as [Hacc _].
    unfold constraints_hold, user_ids in *; simpl.
    split_and!; try done. apply Forall_app. split; [done | by constructor].
  - intros [= <-]. unfold constraints_hold.
    split_and!; simpl; apply Forall_forall; intros x [Hne Hx]%list_elem_of_filter.
    + by apply (proj1 (Forall_forall _ _) Hu).
    + eapply mood_checkins_accepts_change; [by apply (proj1 (Forall_forall _ _) Hc) |].
      intros u Hxu Hin. apply user_ids_delete. split; [done | congruence].
    + eapply wearable_daily_accepts_change; [by apply (proj1 (Forall_forall _ _) Hw) |].
      intros u Hxu Hin. apply user_ids_delete. split; [done | congruence].
    + eapply exercise_sessions_accepts_change; [by apply (proj1 (Forall_forall _ _) Hs) |].
      intros u Hxu Hin. apply user_ids_delete. split; [done | congruence].
    + eapply mood_prescriptions_accepts_change; [by apply (proj1 (Forall_forall _ _) Hp) |].
      intros u Hxu Hin. apply user_ids_delete. split; [done | congruence].
    + eapply user_correlations_accepts_change; [by apply (proj1 (Forall_forall _ _) Hr) |].
      intros u Hxu Hin. apply user_ids_delete. split; [done | congruence].
Qed.

Lemma run_constraints stmts db : constraints_hold db → constraints_hold (run stmts db).
Proof.
  revert db. induction stmts as [| stmt stmts IH]; intros db Hdb; [done |].
  simpl. apply IH. destruct (execute db stmt) as [db' |] eqn:Hex; simpl; [| done].
  by eapply execute_constraints.
Qed.

Lemma NoDup_fmap_snoc {A K : Type} `{EqDecision K} (f : A → K) (l : list A) (r : A) :
  NoDup (f <$> l) → fresh (f r) (f <$> l) = true → NoDup (f <$> l ++ [r]).
Proof.
  intros Hnd Hfresh%bool_decide_eq_true_1. rewrite fmap_app. apply NoDup_app.
  split_and!; [done | | apply NoDup_singleton].
  intros x Hx ->%list_elem_of_singleton. done.
Qed.

Lemma NoDup_fmap_filter {A K : Type} (f : A → K) (P : A → Prop) `{∀ x, Decision (P x)}
    (l : list A) :
  NoDup (f <$> l) → NoDup (f <$> filter P l).
Proof.
  intros Hnd. eapply sublist_NoDup; [exact Hnd |]. apply fmap_sublist, sublist_filter.
Qed.

Lemma execute_keys_unique db stmt db' :
  keys_unique db → execute db stmt = Some db' → keys_unique db'.
Proof.
  intros (H1 & H2 & H3 & H4 & H5 & H6 & H7 & H8).
  destruct stmt as [r | r | r | r | r | r | uid]; simpl.
  - destruct (users_accepts r && _ && _) eqn:Hok; [| discriminate]. intros [= <-].
    apply andb_true_iff in Hok as [[_ Hid]%andb_true_iff Hemail].
    unfold keys_unique; simpl. split_and!; try done; by apply NoDup_fmap_snoc.
  - destruct (mood_checkins_accepts (user_ids db) r && _) eqn:Hok; [| discriminate].
    intros [= <-]. apply andb_true_iff in Hok as [_ Hid].
    unfold keys_unique; simpl. split_and!; try done; by apply NoDup_fmap_snoc.
  - destruct (wearable_daily_accepts (user_ids db) r && _ && _) eqn:Hok; [| discriminate].
    intros [= <-]. apply andb_true_iff in Hok as [[_ Hid]%andb_true_iff Hkey].
    unfold keys_unique; simpl. split_and!; try done; by apply NoDup_fmap_snoc.
  - destruct (exercise_sessions_accepts (user_ids db) r && _) eqn:Hok; [| discriminate].
    intros [= <-]. apply andb_true_iff in Hok as [_ Hid].
    unfold keys_unique; simpl. split_and!; try done; by apply NoDup_fmap_snoc.
  - destruct (mood_prescriptions_accepts (user_ids db) r && _) eqn:Hok; [| discriminate].
    intros [= <-]. apply andb_true_iff in Hok as [_ Hid].
    unfold keys_unique; simpl. split_and!; try done; by apply NoDup_fmap_snoc.
  - destruct (user_correlations_accepts (user_ids db) r && _) eqn:Hok; [| discriminate].
    intros [= <-]. apply andb_true_iff in Hok as [_ Hid].
    unfold keys_unique; simpl. split_and!; try done; by apply NoDup_fmap_snoc.
  - intros [= <-]. unfold keys_unique; simpl. split_and!; by apply NoDup_fmap_filter.
Qed.

Lemma run_keys_unique stmts db : keys_unique db → keys_unique (run stmts db).
Proof.
  revert db. induction stmts as [| stmt stmts IH]; intros db Hdb; [done |].
  simpl. apply IH. destruct (execute db stmt) as [db' |] eqn:Hex; simpl; [| done].
  by eapply execute_keys_unique.
Qed.

End DatabaseSteps.

(** X20. After any sequence of inserts and user deletions (rejected
    statements changing nothing), every stored row still satisfies the
    constraints of its table: in particular every stored check-in has a
    [mood_score] between 1 and 10, and every stored check-in and exercise
    session belongs to a user that is still stored. *)
Theorem stored_rows_satisfy_constraints (stmts : list Database.Statement) :
  let db := Database.run stmts Database.empty in
  Database.constraints_hold db
  ∧ (∀ r, r ∈ Database.t_mood_checkins db →
       (∃ m, Schema.mood_score r = Some m ∧ 1 ≤ m ≤ 10)
       ∧ ∃ u, Schema.mc_user_id r = Some u ∧ u ∈ Database.user_ids db)
  ∧ (∀ r, r ∈ Database.t_exercise_sessions db →
       ∃ u, Schema.es_user_id r = Some u ∧ u ∈ Database.user_ids db).
Proof.
  intros db.
  assert (Hdb : Database.constraints_hold db).
  { apply run_constraints. unfold Database.constraints_hold. simpl. split_and!; constructor. }
  split; [done |]. destruct Hdb as (_ & Hc & _ & Hs & _). split.
  - intros r Hr. apply (proj1 (Forall_forall _ _) Hc) in Hr.
    unfold Schema.mood_checkins_accepts in Hr. rewrite !andb_true_iff in Hr.
    destruct Hr as [[[[[[[_ Hnn] Href] Hm] _] Hrange] _] _]. split.
    + apply not_null_Some in Hm as [m Hm]. exists m. split; [done |].
      rewrite Hm in Hrange. by apply bool_decide_eq_true_1 in Hrange.
    + apply not_null_Some in Hnn as [u Hu]. exists u. split; [done |].
      rewrite Hu in Href. by apply bool_decide_eq_true_1 in Href.
  - intros r Hr. apply (proj1 (Forall_forall _ _) Hs) in Hr.
    unfold Schema.exercise_sessions_accepts in Hr. rewrite !andb_true_iff in Hr.
    destruct Hr as [[[[[[[_ Hnn] Href] _] _] _] _] _].
    apply not_null_Some in Hnn as [u Hu]. exists u. split; [done |].
    rewrite Hu in Href. by apply bool_decide_eq_true_1 in Href.
Qed.

(** X21. Deleting a user takes every row of that user with it, in all five
    referencing tables, and from then on no check-in, wearable row,
    exercise session, prescription or correlation naming that user is
    accepted. *)
Theorem deleted_user_leaves_nothing (db : Database.DB) (uid : string) :
  let db' := Database.delete_user uid db in
  (uid ∉ Database.user_ids db')
  ∧ (∀ r, r ∈ Database.t_mood_checkins db' → Schema.mc_user_id r ≠ Some uid)
  ∧ (∀ r, r ∈ Database.t_wearable_daily db' → Database.w_user_id r ≠ Some uid)
  ∧ (∀ r, r ∈ Database.t_exercise_sessions db' → Schema.es_user_id r ≠ Some uid)
  ∧ (∀ r, r ∈ Database.t_mood_prescriptions db' → Database.mp_user_id r ≠ Some uid)
  ∧ (∀ r, r ∈ Database.t_user_correlations db' → Database.uc_user_id r ≠ Some uid)
  ∧ (∀ r, Schema.mc_user_id r = Some uid →
       Database.execute db' (Database.InsertCheckin r) = None)
  ∧ (∀ r, Database.w_user_id r = Some uid →
       Database.execute db' (Database.InsertWearable r) = None)
  ∧ (∀ r, Schema.es_user_id r = Some uid →
       Database.execute db' (Database.InsertSession r) = None)
  ∧ (∀ r, Database.mp_user_id r = Some uid →
       Database.execute db' (Database.InsertPrescription r) = None)
  ∧ (∀ r, Database.uc_user_id r = Some uid →
       Database.execute db' (Database.InsertCorrelation r) = None).
Proof.
  intros db'. subst db'. split_and!.
  - apply deleted_user_gone.
  - intros r [Hne _]%list_elem_of_filter. done.
  - intros r [Hne _]%list_elem_of_filter. done.
  - intros r [Hne _]%list_elem_of_filter. done.
  - intros r [Hne _]%list_elem_of_filter. done.
  - intros r [Hne _]%list_elem_of_filter. done.
  - intros r Hr. unfold Database.execute, Schema.mood_checkins_accepts.
    rewrite (references_deleted db uid _ Hr). by rewrite !andb_false_r.
  - intros r Hr. unfold Database.execute, Database.wearable_daily_accepts.
    rewrite (references_deleted db uid _ Hr). by rewrite !andb_false_r.
  - intros r Hr. unfold Database.execute, Schema.exercise_sessions_accepts.
    rewrite (references_deleted db uid _ Hr). by rewrite !andb_false_r.
  - intros r Hr. unfold Database.execute, Database.mood_prescriptions_accepts.
    rewrite (references_deleted db uid _ Hr). by rewrite !andb_false_r.
  - intros r Hr. unfold Database.execute, Database.user_correlations_accepts.
    rewrite (references_deleted db uid _ Hr). by rewrite !andb_false_r.
Qed.

(** X22. After any sequence of inserts and user deletions no two stored
    rows of a table share their primary key, no two users share an email,
    and no two wearable rows share their (user_id, date, source). *)
Theorem stored_keys_stay_unique (stmts : list Database.Statement) :
  Database.keys_unique (Database.run stmts Database.empty).
Proof.
  apply run_keys_unique. unfold Database.keys_unique. simpl. split_and!; constructor.
Qed.

Lemma stored_rows_satisfy_constraints_witness :
  Database.t_mood_checkins (Database.run Rows.statements Database.empty)
  = [Rows.checkin "m1" "u1" 7]
  ∧ ∃ m, Schema.mood_score (Rows.checkin "m1" "u1" 7) = Some m ∧ 1 ≤ m ≤ 10.
Proof.
  assert (Hrun : Database.t_mood_checkins (Database.run Rows.statements Database.empty)
                 = [Rows.checkin "m1" "u1" 7]) by (vm_compute; reflexivity).
  split; [exact Hrun |].
  assert (Hin : Rows.checkin "m1" "u1" 7
                ∈ Database.t_mood_checkins (Database.run Rows.statements Database.empty))
    by (rewrite Hrun; apply elem_of_cons; by left).
  exact (proj1 (proj1 (proj2 (stored_rows_satisfy_constraints Rows.statements)) _ Hin)).
Defined.

Lemma deleted_user_leaves_nothing_witness :
  let db := Database.run Rows.statements Database.empty in
  Database.execute db (Database.InsertCheckin (Rows.checkin "m4" "u1" 6)) ≠ None
  ∧ Database.execute (Database.delete_user "u1" db)
      (Database.InsertCheckin (Rows.checkin "m4" "u1" 6)) = None.
Proof.
  intros db. split; [vm_compute; discriminate |].
  exact (proj1 (proj2 (proj2 (proj2 (proj2 (proj2 (proj2
           (deleted_user_leaves_nothing db "u1")))))))
           (Rows.checkin "m4" "u1" 6) eq_refl).
Defined.
